(** * oecophylla QC rules (qc.py): a shallow embedding

    The source is a Snakemake rule file: four rules (qc_atropos, qc_filter,
    qc_per_sample_fastqc, qc_per_sample_multiqc) and the aggregate target
    qc.  Each rule computes file paths from wildcards and runs a shell
    script over external tools.  The embedding has four layers:

    - [Path]: the os.path functions the run blocks call;
    - [Sam]: SAM records and the record-level meaning of the options the
      filter pipe passes to samtools and bedtools;
    - [Fs] and [Shell]: a file system keyed by normalised absolute paths,
      and the shell commands of the scripts as state transformers that
      also expose the intermediate states;
    - [Rules]: the path templates, the declared inputs and outputs, and
      the run blocks of qc.py. *)

From Stdlib Require Import ZArith Ascii String List Bool Lia.
From stdpp Require Import base option list gmap strings.

Local Open Scope Z_scope.
Local Open Scope stdpp_scope.

(** ** os.path *)

Module Path.

Definition is_slash (c : ascii) : bool := Ascii.eqb c "/".

(** [p.split('/')] *)
Fixpoint split_slash (p : string) : list string :=
  match p with
  | EmptyString => [""]
  | String c r =>
      if is_slash c then "" :: split_slash r
      else match split_slash r with
           | [] => [String c ""]
           | h :: t => String c h :: t
           end
  end.

(** ['/'.join(cs)] *)
Fixpoint join_slash (cs : list string) : string :=
  match cs with
  | [] => ""
  | [c] => c
  | c :: rest => c +:+ "/" +:+ join_slash rest
  end.

Definition isabs (p : string) : bool :=
  match p with
  | String c _ => is_slash c
  | EmptyString => false
  end.

Fixpoint ends_with_slash (p : string) : bool :=
  match p with
  | EmptyString => false
  | String c EmptyString => is_slash c
  | String _ r => ends_with_slash r
  end.

(** [os.path.join(a, b)] *)
Definition join (a b : string) : string :=
  if isabs b then b
  else if bool_decide (a = "") || ends_with_slash a then a +:+ b
  else a +:+ "/" +:+ b.

(** The loop of [os.path.normpath]; [stack] is [new_comps], last
    component first. *)
Fixpoint norm_loop (initial_slashes : bool) (comps stack : list string)
  : list string :=
  match comps with
  | [] => rev stack
  | comp :: rest =>
      if bool_decide (comp = "") || bool_decide (comp = ".")
      then norm_loop initial_slashes rest stack
      else if negb (bool_decide (comp = ".."))
              || (negb initial_slashes && bool_decide (stack = []))
              || bool_decide (head stack = Some "..")
      then norm_loop initial_slashes rest (comp :: stack)
      else norm_loop initial_slashes rest (tail stack)
  end.

(** Number of leading slashes [normpath] keeps: two when the path starts
    with exactly two, one when it starts with any other positive number. *)
Definition initial_slashes (p : string) : nat :=
  match p with
  | String c1 (String c2 (String c3 _)) =>
      if is_slash c1 then
        if is_slash c2 && negb (is_slash c3) then 2%nat else 1%nat
      else 0%nat
  | String c1 (String c2 EmptyString) =>
      if is_slash c1 then if is_slash c2 then 2%nat else 1%nat else 0%nat
  | String c1 EmptyString => if is_slash c1 then 1%nat else 0%nat
  | EmptyString => 0%nat
  end.

Fixpoint slashes (n : nat) : string :=
  match n with
  | O => ""
  | S n => String "/" (slashes n)
  end.

(** [os.path.normpath] *)
Definition normpath (p : string) : string :=
  if bool_decide (p = "") then "."
  else
    let n := initial_slashes p in
    let comps := norm_loop (negb (Nat.eqb n 0)) (split_slash p) [] in
    let path := slashes n +:+ join_slash comps in
    if bool_decide (path = "") then "." else path.

(** [os.path.abspath], with [os.getcwd()] passed in. *)
Definition abspath (cwd p : string) : string :=
  normpath (if isabs p then p else join cwd p).

(** [(p[:i], p[i:])] for [i = p.rfind('/') + 1] *)
Fixpoint rsplit_slash (p : string) : string * string :=
  match p with
  | EmptyString => ("", "")
  | String c r =>
      let '(h, t) := rsplit_slash r in
      if bool_decide (h = "")
      then if is_slash c then (String c "", t) else ("", String c t)
      else (String c h, t)
  end.

(** [os.path.basename] *)
Definition basename (p : string) : string := (rsplit_slash p).2.

Fixpoint all_slashes (p : string) : bool :=
  match p with
  | EmptyString => true
  | String c r => is_slash c && all_slashes r
  end.

(** [p.rstrip('/')] *)
Fixpoint rstrip_slash (p : string) : string :=
  match p with
  | EmptyString => ""
  | String c r =>
      let r' := rstrip_slash r in
      if bool_decide (r' = "") && is_slash c then "" else String c r'
  end.

(** [os.path.dirname] *)
Definition dirname (p : string) : string :=
  let head := (rsplit_slash p).1 in
  if negb (bool_decide (head = "")) && negb (all_slashes head)
  then rstrip_slash head else head.

(** The file a path names: the list of its components below the root,
    after the working directory is prepended to a relative path and the
    empty, [.] and [..] components are resolved.  Directories are taken
    not to be symbolic links, so that this lexical resolution is the
    kernel's. *)
Definition key (cwd p : string) : list string :=
  norm_loop true (split_slash (join cwd p)) [].

(** Path components: a string without a slash, and one that is also
    none of the empty string, [.] and [..]. *)
Fixpoint slash_free (s : string) : bool :=
  match s with
  | EmptyString => true
  | String c r => negb (is_slash c) && slash_free r
  end.

Definition clean (c : string) : bool :=
  slash_free c
  && negb (bool_decide (c = "") || bool_decide (c = ".")
           || bool_decide (c = "..")).

(** A file-name ending: slash-free, with a character other than the
    dot. *)
Fixpoint dots (s : string) : bool :=
  match s with
  | EmptyString => true
  | String c r => Ascii.eqb c "." && dots r
  end.

Definition ending (s : string) : bool := slash_free s && negb (dots s).

Definition has_ending (p s : string) : Prop := exists x, p = x +:+ s.

End Path.

(** ** SAM records and the tools that filter, sort and pair them

    The filter pipe of qc_filter hands the aligner's SAM stream to
    [samtools view -f 12 -F 256], [samtools sort -n], [samtools view -bS]
    and [bedtools bamtofastq -fq .. -fq2 ..].  These are external tools;
    what follows is the record-level meaning of the options the source
    passes, as the tools document it. *)

Module Sam.

Record record := {
  qname : string;
  flag : Z;
  bases : string;
  quals : string
}.

(** A FASTQ entry. *)
Record fastq_read := {
  rname : string;
  rseq : string;
  rqual : string
}.

(** SAM flag bits. *)
Definition PAIRED : Z := 1.
Definition UNMAP : Z := 4.
Definition MUNMAP : Z := 8.
Definition REVERSE : Z := 16.
Definition READ1 : Z := 64.
Definition SECONDARY : Z := 256.

Definition has_flag (bit : Z) (r : record) : bool :=
  negb (Z.land (flag r) bit =? 0).

(** [samtools view -f f -F F]: a record is kept when all bits of [f] are
    set and no bit of [F] is. *)
Definition view_keep (f F : Z) (r : record) : bool :=
  (Z.land (flag r) f =? f) && (Z.land (flag r) F =? 0).

Definition view_flags (f F : Z) (rs : list record) : list record :=
  List.filter (view_keep f F) rs.

(** [samtools sort -n]: a stable sort on the read name; the order on
    names is the tool's, taken as a parameter. *)
Fixpoint insert_by_name (le : string -> string -> bool) (r : record)
  (rs : list record) : list record :=
  match rs with
  | [] => [r]
  | r' :: rest =>
      if le (qname r) (qname r') then r :: rs
      else r' :: insert_by_name le r rest
  end.

Fixpoint sort_by_name (le : string -> string -> bool) (rs : list record)
  : list record :=
  match rs with
  | [] => []
  | r :: rest => insert_by_name le r (sort_by_name le rest)
  end.

Definition complement (c : ascii) : ascii :=
  if Ascii.eqb c "A" then "T"
  else if Ascii.eqb c "T" then "A"
  else if Ascii.eqb c "C" then "G"
  else if Ascii.eqb c "G" then "C"
  else c.

Fixpoint map_string (f : ascii -> ascii) (s : string) : string :=
  match s with
  | EmptyString => ""
  | String c r => String (f c) (map_string f r)
  end.

(** The FASTQ entry of a record: a read aligned to the reverse strand is
    turned back to its original orientation. *)
Definition to_read (suffix : string) (r : record) : fastq_read :=
  if has_flag REVERSE r
  then {| rname := qname r +:+ suffix;
          rseq := String.rev (map_string complement (bases r));
          rqual := String.rev (quals r) |}
  else {| rname := qname r +:+ suffix;
          rseq := bases r;
          rqual := quals r |}.

(** [bedtools bamtofastq -fq .. -fq2 ..]: two consecutive records with
    one name, both flagged as paired, are written as one pair, the
    first-in-pair record to the first file; a record whose successor has
    another name is skipped. *)
Fixpoint bamtofastq (rs : list record) : list (fastq_read * fastq_read) :=
  match rs with
  | b1 :: rest =>
      match rest with
      | b2 :: rest' =>
          if bool_decide (qname b1 = qname b2) then
            if has_flag PAIRED b1 && has_flag PAIRED b2 then
              (if has_flag READ1 b1
               then (to_read "/1" b1, to_read "/2" b2)
               else (to_read "/1" b2, to_read "/2" b1))
              :: bamtofastq rest'
            else bamtofastq rest'
          else bamtofastq rest
      | [] => []
      end
  | [] => []
  end.

(** The two records of a read pair as the aligner writes them, one after
    the other, and a stream of such pairs. *)
Definition interleave (ps : list (record * record)) : list record :=
  flat_map (fun ab => [ab.1; ab.2]) ps.

(** The flags of the two records of one pair agree: one name, both
    flagged as paired, each mate-unmapped bit (0x8) telling what the
    unmapped bit (0x4) of the other record tells, and neither a
    secondary alignment. *)
Definition well_flagged (ab : record * record) : Prop :=
  qname ab.1 = qname ab.2
  /\ has_flag PAIRED ab.1 = true /\ has_flag PAIRED ab.2 = true
  /\ has_flag MUNMAP ab.1 = has_flag UNMAP ab.2
  /\ has_flag MUNMAP ab.2 = has_flag UNMAP ab.1
  /\ has_flag SECONDARY ab.1 = false /\ has_flag SECONDARY ab.2 = false.

Definition both_unmapped (ab : record * record) : bool :=
  has_flag UNMAP ab.1 && has_flag UNMAP ab.2.

(** The FASTQ entries of a pair, first-in-pair first. *)
Definition pair_reads (ab : record * record) : fastq_read * fastq_read :=
  if has_flag READ1 ab.1
  then (to_read "/1" ab.1, to_read "/2" ab.2)
  else (to_read "/1" ab.2, to_read "/2" ab.1).

(** The name sort, seen on pairs. *)
Fixpoint insert_pair (le : string -> string -> bool) (ab : record * record)
  (ps : list (record * record)) : list (record * record) :=
  match ps with
  | [] => [ab]
  | cd :: rest =>
      if le (qname ab.1) (qname cd.1) then ab :: ps
      else cd :: insert_pair le ab rest
  end.

Fixpoint sort_pairs (le : string -> string -> bool)
  (ps : list (record * record)) : list (record * record) :=
  match ps with
  | [] => []
  | ab :: rest => insert_pair le ab (sort_pairs le rest)
  end.

End Sam.

(** ** The file system *)

Module Fs.

Inductive content :=
| Text (s : string)
| Fastq (rs : list Sam.fastq_read)
| Gz (c : content).

(** What a path holds: a complete file, a file some tool is still
    writing, a symbolic link, or a directory. *)
Inductive node :=
| File (c : content)
| Partial
| Link (target : string)
| Dir.

Abbreviation FS := (gmap (list string) node).

Definition render (k : list string) : string :=
  "/" +:+ Path.join_slash k.

(** The file a link's target names, from the directory of the link. *)
Definition link_dest (k : list string) (target : string) : list string :=
  Path.key (render (removelast k)) target.

(** Following symbolic links at the last component, at most [fuel]
    times (the kernel gives up after 40). *)
Fixpoint resolve (fuel : nat) (fs : FS) (k : list string)
  : option (list string) :=
  match fs !! k with
  | Some (Link t) =>
      match fuel with
      | O => None
      | S n => resolve n fs (link_dest k t)
      end
  | _ => Some k
  end.

Definition MAXSYMLINKS : nat := 40.

Definition locate (cwd : string) (fs : FS) (p : string)
  : option (list string) :=
  resolve MAXSYMLINKS fs (Path.key cwd p).

(** Reading the complete file a path names. *)
Definition read (cwd : string) (fs : FS) (p : string) : option content :=
  match locate cwd fs p with
  | Some k => match fs !! k with
              | Some (File c) => Some c
              | _ => None
              end
  | None => None
  end.

(** Opening a path for writing (create or truncate) and leaving [n]
    there; fails on a directory. *)
Definition put (cwd : string) (fs : FS) (p : string) (n : node)
  : option FS :=
  match locate cwd fs p with
  | Some k => match fs !! k with
              | Some Dir => None
              | _ => Some (<[k := n]> fs)
              end
  | None => None
  end.

Fixpoint put_all (cwd : string) (fs : FS) (ws : list (string * node))
  : option FS :=
  match ws with
  | [] => Some fs
  | (p, n) :: rest =>
      match put cwd fs p n with
      | Some fs' => put_all cwd fs' rest
      | None => None
      end
  end.

(** [scp src dst] between local paths: a copy of the file [src] names
    to [dst], or into [dst] when that is a directory. *)
Definition cp (cwd : string) (fs : FS) (src dst : string) : option FS :=
  match read cwd fs src, locate cwd fs dst with
  | Some c, Some k =>
      match fs !! k with
      | Some Dir =>
          match resolve MAXSYMLINKS fs (k ++ [Path.basename src]) with
          | Some k' => match fs !! k' with
                       | Some Dir => None
                       | _ => Some (<[k' := File c]> fs)
                       end
          | None => None
          end
      | _ => Some (<[k := File c]> fs)
      end
  | _, _ => None
  end.

(** [ln -s target link]: refuses an existing [link], unless it names a
    directory, in which the link is then made. *)
Definition ln_s (cwd : string) (fs : FS) (target link : string)
  : option FS :=
  let k := Path.key cwd link in
  match fs !! k with
  | None => Some (<[k := Link target]> fs)
  | Some _ =>
      match resolve MAXSYMLINKS fs k with
      | Some kd =>
          match fs !! kd with
          | Some Dir =>
              let k' := kd ++ [Path.basename target] in
              match fs !! k' with
              | None => Some (<[k' := Link target]> fs)
              | Some _ => None
              end
          | _ => None
          end
      | None => None
      end
  end.

(** [shutil.rmtree]: the directory and all below it. *)
Definition rmtree (k : list string) (fs : FS) : FS :=
  filter (fun kn => ~ k `prefix_of` kn.1) fs.

(** Nothing at [k] or below it. *)
Definition vacant (k : list string) (fs : FS) : Prop :=
  map_Forall (fun k' _ => ~ k `prefix_of` k') fs.

(** [tempfile.mkdtemp]: [tmp] is the name it picked; the directory is
    new, so nothing is in it. *)
Definition mkdtemp (cwd : string) (fs : FS) (tmp : string) : option FS :=
  if bool_decide (vacant (Path.key cwd tmp) fs)
  then Some (<[Path.key cwd tmp := Dir]> fs)
  else None.

(** A path that holds neither a symbolic link nor a directory: a
    regular file, or nothing yet. *)
Definition plain (fs : FS) (k : list string) : Prop :=
  match fs !! k with
  | Some (Link _) | Some Dir => False
  | _ => True
  end.


(** A scratch directory about to be made, and a path a task may write
    that lies outside it and holds a regular file or nothing. *)
Definition scratch_ready (cwd temp_dir : string) (fs : FS) : Prop :=
  temp_dir <> "" /\ vacant (Path.key cwd temp_dir) fs.

Definition target_ready (cwd temp_dir : string) (fs : FS) (p : string)
  : Prop :=
  plain fs (Path.key cwd p)
  /\ ~ Path.key cwd temp_dir `prefix_of` Path.key cwd p.

Definition regular (n : node) : Prop :=
  match n with
  | File _ | Partial => True
  | Link _ | Dir => False
  end.

End Fs.

(** ** Shell scripts *)

Module Shell.
Import Fs.

(** The external programs, as functions of what they read.  [None] is a
    non-zero exit. *)
Record tools := {
  (** the environment activation string of the configuration *)
  env_ok : string -> bool;
  (** threads, parameters, forward and reverse reads: trimmed forward,
      trimmed reverse, report *)
  atropos : nat -> string -> content -> content
            -> option (content * content * content);
  (** threads, index, forward and reverse reads: SAM stream, stderr *)
  bowtie2 : nat -> string -> content -> content
            -> option (list Sam.record * content);
  (** the order of [samtools sort -n] on read names *)
  name_le : string -> string -> bool;
  (** what samtools and bedtools leave on stderr *)
  other_log : list Sam.record -> content;
  (** threads, one input: HTML report, ZIP archive *)
  fastqc : nat -> content -> option (content * content);
  fastqc_log : content -> content -> content;
  (** the scanned files: combined report, stderr *)
  multiqc : FS -> option (content * content)
}.

Inductive sam_filter :=
| SamtoolsView (f F : Z)
| SamtoolsSortN
| SamtoolsViewBS.

Inductive cmd :=
| Activate (env : string)
| Atropos (threads : nat) (params report o p pe1 pe2 : string)
| Scp (src dst : string)
| LnS (target link : string)
| EchoTo (msg file : string)
| Bowtie2Pipe (threads : nat) (x m1 m2 log_bowtie : string)
    (filters : list sam_filter) (log_other fq fq2 : string)
| Pigz (src dst : string)
| Fastqc (threads : nat) (outdir fwd rev log : string)
| Multiqc (outdir : string) (dirs : list string) (log : string).

Inductive status :=
| Success
| CalledProcessError
| KeyError
| OSError.

(** The states a run goes through after its start, and how it ends. *)
Definition run : Type := list FS * status.

Definition final (fs : FS) (r : run) : FS := List.last r.1 fs.

Definition atomic (r : option FS) : run :=
  match r with
  | Some fs' => ([fs'], Success)
  | None => ([], CalledProcessError)
  end.

(** A program that writes the files [targets]: they are created, then
    the program reads its input and, unless it fails, completes them. *)
Definition produce (cwd : string) (fs : FS) (targets : list string)
  (prog : FS -> option (list (string * content))) : run :=
  match put_all cwd fs (map (fun p => (p, Partial)) targets) with
  | None => ([], CalledProcessError)
  | Some fs1 =>
      match prog fs1 with
      | None => ([fs1], CalledProcessError)
      | Some outs =>
          match put_all cwd fs1 (map (fun pc => (pc.1, File pc.2)) outs) with
          | Some fs2 => ([fs1; fs2], Success)
          | None => ([fs1], CalledProcessError)
          end
      end
  end.

(** The states [produce] goes through when no target is a link or a
    directory. *)
Definition mark (cwd : string) (targets : list string) (fs : FS) : FS :=
  fold_left (fun m p => <[Path.key cwd p := Partial]> m) targets fs.

Definition fill (cwd : string) (outs : list (string * content)) (fs : FS)
  : FS :=
  fold_left (fun m pc => <[Path.key cwd pc.1 := File pc.2]> m) outs fs.

Definition apply_filter (T : tools) (f : sam_filter)
  (rs : list Sam.record) : list Sam.record :=
  match f with
  | SamtoolsView f F => Sam.view_flags f F rs
  | SamtoolsSortN => Sam.sort_by_name (name_le T) rs
  | SamtoolsViewBS => rs
  end.

Definition apply_filters (T : tools) (fl : list sam_filter)
  (rs : list Sam.record) : list Sam.record :=
  fold_left (fun acc f => apply_filter T f acc) fl rs.

(** Suffix removal, as in [name.replaceAll("\\.gz$", "")]. *)
Fixpoint strip_suffix (suf s : string) : option string :=
  if bool_decide (s = suf) then Some ""
  else match s with
       | EmptyString => None
       | String c r => String c <$> strip_suffix suf r
       end.

Definition chop (s suf : string) : string :=
  default s (strip_suffix suf s).

(** The name fastqc gives the report of a file: the file's name without
    its sequence-file extensions. *)
Definition fastqc_stem (file : string) : string :=
  fold_left chop
    [".gz"; ".bz2"; ".txt"; ".fastq"; ".fq"; ".csfastq"; ".sam"; ".bam"]
    (Path.basename file).

Definition fastqc_html (outdir file : string) : string :=
  outdir +:+ "/" +:+ fastqc_stem file +:+ "_fastqc.html".

Definition fastqc_zip (outdir file : string) : string :=
  outdir +:+ "/" +:+ fastqc_stem file +:+ "_fastqc.zip".

(** A directory argument with [*] components; a file is scanned when it
    lies in a directory the pattern matches. *)
Fixpoint glob_prefix (pat k : list string) : bool :=
  match pat, k with
  | [], _ => true
  | p :: pat', c :: k' =>
      (bool_decide (p = "*") || bool_decide (p = c)) && glob_prefix pat' k'
  | _ :: _, [] => false
  end.

Definition scanned (cwd : string) (dirs : list string) (fs : FS) : FS :=
  filter (fun kn => existsb (fun d => glob_prefix (Path.key cwd d) kn.1) dirs) fs.

Definition exec (T : tools) (cwd : string) (c : cmd) (fs : FS) : run :=
  match c with
  | Activate env =>
      ([], if env_ok T env then Success else CalledProcessError)
  | Atropos threads params report o p pe1 pe2 =>
      produce cwd fs [o; p; report] (fun fs1 =>
        match read cwd fs1 pe1, read cwd fs1 pe2 with
        | Some r1, Some r2 =>
            match atropos T threads params r1 r2 with
            | Some (t1, t2, rep) => Some [(o, t1); (p, t2); (report, rep)]
            | None => None
            end
        | _, _ => None
        end)
  | Scp src dst => atomic (cp cwd fs src dst)
  | LnS target link => atomic (ln_s cwd fs target link)
  | EchoTo msg file =>
      atomic (put cwd fs file (File (Text (msg +:+ String "010" ""))))
  | Bowtie2Pipe threads x m1 m2 log_bowtie filters log_other fq fq2 =>
      produce cwd fs [log_bowtie; log_other; fq; fq2] (fun fs1 =>
        match read cwd fs1 m1, read cwd fs1 m2 with
        | Some r1, Some r2 =>
            match bowtie2 T threads x r1 r2 with
            | Some (sam, err) =>
                let kept := apply_filters T filters sam in
                let pairs := Sam.bamtofastq kept in
                Some [(log_bowtie, err); (log_other, other_log T kept);
                      (fq, Fastq (map fst pairs));
                      (fq2, Fastq (map snd pairs))]
            | None => None
            end
        | _, _ => None
        end)
  | Pigz src dst =>
      produce cwd fs [dst] (fun fs1 =>
        match read cwd fs1 src with
        | Some c => Some [(dst, Gz c)]
        | None => None
        end)
  | Fastqc threads outdir fwd rev log =>
      produce cwd fs
        [log; fastqc_html outdir fwd; fastqc_zip outdir fwd;
         fastqc_html outdir rev; fastqc_zip outdir rev]
        (fun fs1 =>
           match read cwd fs1 fwd, read cwd fs1 rev with
           | Some r1, Some r2 =>
               match fastqc T threads r1, fastqc T threads r2 with
               | Some (h1, z1), Some (h2, z2) =>
                   Some [(log, fastqc_log T r1 r2);
                         (fastqc_html outdir fwd, h1);
                         (fastqc_zip outdir fwd, z1);
                         (fastqc_html outdir rev, h2);
                         (fastqc_zip outdir rev, z2)]
               | _, _ => None
               end
           | _, _ => None
           end)
  | Multiqc outdir dirs log =>
      produce cwd fs [log; outdir +:+ "/multiqc_report.html"] (fun fs1 =>
        match multiqc T (scanned cwd dirs fs1) with
        | Some (report, err) =>
            Some [(log, err); (outdir +:+ "/multiqc_report.html", report)]
        | None => None
        end)
  end.

(** [shell(...)]: the commands of a script in turn, in bash strict mode (the
    workflow engine runs every script under [set -euo pipefail]), so
    that the first failing command ends the script. *)
Fixpoint shell (T : tools) (cwd : string) (script : list cmd) (fs : FS)
  : run :=
  match script with
  | [] => ([], Success)
  | c :: rest =>
      let r := exec T cwd c fs in
      match r.2 with
      | Success =>
          let r' := shell T cwd rest (final fs r) in
          (r.1 ++ r'.1, r'.2)
      | _ => r
      end
  end.

(** [with tempfile.TemporaryDirectory(dir=...) as temp_dir: body]: the
    directory is removed when the block is left, however it is left. *)
Definition with_tempdir (cwd tmp : string) (body : FS -> run) (fs : FS)
  : run :=
  match mkdtemp cwd fs tmp with
  | None => ([], OSError)
  | Some fs1 =>
      let r := body fs1 in
      ([fs1] ++ r.1 ++ [rmtree (Path.key cwd tmp) (final fs1 r)], r.2)
  end.

End Shell.

(** ** The rules of qc.py *)

Module Rules.
Import Fs Shell.

(** A value of the YAML configuration. *)
Inductive pyval :=
| PyNone
| PyStr (s : string)
| PyBool (b : bool).

(** [str(v)], as [str.format] writes a value into a script. *)
Definition py_str (v : pyval) : string :=
  match v with
  | PyNone => "None"
  | PyStr s => s
  | PyBool true => "True"
  | PyBool false => "False"
  end.

(** The names the rule file takes from the enclosing workflow:
    [qc_dir], [raw_dir], [trimmer], [samples] and the entries of
    [config] it reads. *)
Record config := {
  qc_dir : string;
  raw_dir : string;
  trimmer : string;
  samples : list string;
  params_atropos : string;
  envs_qc : string;
  config_samples : gmap string (gmap string pyval)
}.

Record pair := {
  forward : string;
  reverse : string
}.

Section templates.
Variable C : config.

(** *** rule qc_atropos *)

Definition qc_atropos_input (sample : string) : pair :=
  {| forward := raw_dir C +:+ sample +:+ "/combined_reads/" +:+ sample +:+ ".R1.fastq.gz";
     reverse := raw_dir C +:+ sample +:+ "/combined_reads/" +:+ sample +:+ ".R2.fastq.gz" |}.

Definition qc_atropos_output (sample trimmer : string) : pair :=
  {| forward := qc_dir C +:+ sample +:+ "/" +:+ trimmer +:+ "_trimmed/" +:+ sample +:+ ".trimmed.R1.fastq.gz";
     reverse := qc_dir C +:+ sample +:+ "/" +:+ trimmer +:+ "_trimmed/" +:+ sample +:+ ".trimmed.R2.fastq.gz" |}.

Definition qc_atropos_threads : nat := 8.

Definition qc_atropos_log (sample : string) : string :=
  qc_dir C +:+ "logs/qc_atropos.sample=[" +:+ sample +:+ "].log".

Definition qc_atropos_script (sample trimmer temp_dir : string) : list cmd :=
  let input := qc_atropos_input sample in
  let output := qc_atropos_output sample trimmer in
  let f_fp := Path.basename (forward output) in
  let r_fp := Path.basename (reverse output) in
  [ Activate (envs_qc C);
    Atropos qc_atropos_threads (params_atropos C) (qc_atropos_log sample)
      (temp_dir +:+ "/" +:+ f_fp) (temp_dir +:+ "/" +:+ r_fp)
      (forward input) (reverse input);
    Scp (temp_dir +:+ "/" +:+ f_fp) (forward output);
    Scp (temp_dir +:+ "/" +:+ r_fp) (reverse output) ].

Definition qc_atropos_run (T : tools) (cwd : string)
  (sample trimmer temp_dir : string) (fs : FS) : run :=
  with_tempdir cwd temp_dir
    (shell T cwd (qc_atropos_script sample trimmer temp_dir)) fs.

Definition trim_ready (cwd sample trimmer temp_dir : string) (fs : FS)
  : Prop :=
  scratch_ready cwd temp_dir fs
  /\ target_ready cwd temp_dir fs (forward (qc_atropos_output sample trimmer))
  /\ target_ready cwd temp_dir fs (reverse (qc_atropos_output sample trimmer))
  /\ target_ready cwd temp_dir fs (qc_atropos_log sample).

(** *** rule qc_filter *)

Definition qc_filter_input (sample : string) : pair :=
  {| forward := qc_dir C +:+ sample +:+ "/" +:+ trimmer C +:+ "_trimmed/" +:+ sample +:+ ".trimmed.R1.fastq.gz";
     reverse := qc_dir C +:+ sample +:+ "/" +:+ trimmer C +:+ "_trimmed/" +:+ sample +:+ ".trimmed.R2.fastq.gz" |}.

Definition qc_filter_output (sample : string) : pair :=
  {| forward := qc_dir C +:+ sample +:+ "/filtered/" +:+ sample +:+ ".R1.trimmed.filtered.fastq.gz";
     reverse := qc_dir C +:+ sample +:+ "/filtered/" +:+ sample +:+ ".R2.trimmed.filtered.fastq.gz" |}.

(** [config['samples'][wildcards.sample]['filter_db']]; [None] is the
    KeyError of a missing key. *)
Definition qc_filter_filter_db (sample : string) : option pyval :=
  match config_samples C !! sample with
  | Some entry => entry !! "filter_db"
  | None => None
  end.

Definition qc_filter_threads : nat := 4.

Definition qc_filter_log_bowtie (sample : string) : string :=
  qc_dir C +:+ "logs/qc_filter.bowtie.sample=[" +:+ sample +:+ "].log".

Definition qc_filter_log_other (sample : string) : string :=
  qc_dir C +:+ "logs/qc_filter.other.sample=[" +:+ sample +:+ "].log".

Definition not_filtered : string := "No DB provided; sample not filtered.".

(** The script of the branch [params.filter_db is None]. *)
Definition qc_filter_link_script (cwd sample : string) : list cmd :=
  let input := qc_filter_input sample in
  let output := qc_filter_output sample in
  let f_fp := Path.abspath cwd (forward input) in
  let r_fp := Path.abspath cwd (reverse input) in
  [ LnS f_fp (forward output);
    LnS r_fp (reverse output);
    EchoTo not_filtered (qc_filter_log_bowtie sample);
    EchoTo not_filtered (qc_filter_log_other sample) ].

(** The stages between the aligner and the FASTQ extraction. *)
Definition qc_filter_stages : list sam_filter :=
  [SamtoolsView 12 256; SamtoolsSortN; SamtoolsViewBS].

(** The script of the [else] branch. *)
Definition qc_filter_align_script (sample filter_db temp_dir : string)
  : list cmd :=
  let input := qc_filter_input sample in
  let output := qc_filter_output sample in
  let r1 := temp_dir +:+ "/" +:+ sample +:+ ".R1.trimmed.filtered.fastq" in
  let r2 := temp_dir +:+ "/" +:+ sample +:+ ".R2.trimmed.filtered.fastq" in
  [ Activate (envs_qc C);
    Bowtie2Pipe qc_filter_threads filter_db (forward input) (reverse input)
      (qc_filter_log_bowtie sample) qc_filter_stages
      (qc_filter_log_other sample) r1 r2;
    Pigz r1 (r1 +:+ ".gz");
    Pigz r2 (r2 +:+ ".gz");
    Scp (r1 +:+ ".gz") (forward output);
    Scp (r2 +:+ ".gz") (reverse output) ].

Definition qc_filter_run (T : tools) (cwd : string)
  (sample temp_dir : string) (fs : FS) : run :=
  match qc_filter_filter_db sample with
  | None => ([], KeyError)
  | Some PyNone => shell T cwd (qc_filter_link_script cwd sample) fs
  | Some db =>
      with_tempdir cwd temp_dir
        (shell T cwd (qc_filter_align_script sample (py_str db) temp_dir)) fs
  end.

(** The state in which the link branch finds its paths when the engine
    starts the job: no output yet, and logs and trimmed reads that are
    regular files where they exist. *)
Definition link_ready (cwd sample : string) (fs : FS) : Prop :=
  fs !! Path.key cwd (forward (qc_filter_output sample)) = None
  /\ fs !! Path.key cwd (reverse (qc_filter_output sample)) = None
  /\ plain fs (Path.key cwd (qc_filter_log_bowtie sample))
  /\ plain fs (Path.key cwd (qc_filter_log_other sample)).

(** The state in which the alignment branch finds its paths: a sample
    name that is one path component, a new scratch directory, and
    outputs and logs outside it that are regular files or absent. *)
Definition align_ready (cwd sample temp_dir : string) (fs : FS) : Prop :=
  Path.slash_free sample = true
  /\ scratch_ready cwd temp_dir fs
  /\ target_ready cwd temp_dir fs (forward (qc_filter_output sample))
  /\ target_ready cwd temp_dir fs (reverse (qc_filter_output sample))
  /\ target_ready cwd temp_dir fs (qc_filter_log_bowtie sample)
  /\ target_ready cwd temp_dir fs (qc_filter_log_other sample).

(** *** rule qc_per_sample_fastqc *)

Definition qc_per_sample_fastqc_input (sample : string) : pair :=
  {| forward := qc_dir C +:+ sample +:+ "/filtered/" +:+ sample +:+ ".R1.trimmed.filtered.fastq.gz";
     reverse := qc_dir C +:+ sample +:+ "/filtered/" +:+ sample +:+ ".R2.trimmed.filtered.fastq.gz" |}.

Record report := {
  html : string;
  zip : string
}.

Definition qc_per_sample_fastqc_output (sample : string) : report :=
  {| html := qc_dir C +:+ sample +:+ "/fastqc_per_sample/" +:+ sample +:+ ".R1.trimmed.filtered_fastqc.html";
     zip := qc_dir C +:+ sample +:+ "/fastqc_per_sample/" +:+ sample +:+ ".R2.trimmed.filtered_fastqc.zip" |}.

Definition qc_per_sample_fastqc_threads : nat := 4.

Definition qc_per_sample_fastqc_log (sample : string) : string :=
  qc_dir C +:+ "logs/qc_per_sample_fastqc.sample=[" +:+ sample +:+ "].log".

Definition qc_per_sample_fastqc_script (sample : string) : list cmd :=
  let input := qc_per_sample_fastqc_input sample in
  let output := qc_per_sample_fastqc_output sample in
  let out_dir := Path.dirname (html output) in
  [ Activate (envs_qc C);
    Fastqc qc_per_sample_fastqc_threads out_dir (forward input)
      (reverse input) (qc_per_sample_fastqc_log sample) ].

Definition qc_per_sample_fastqc_run (T : tools) (cwd : string)
  (sample : string) (fs : FS) : run :=
  shell T cwd (qc_per_sample_fastqc_script sample) fs.

(** *** rule qc_per_sample_multiqc *)

(** [expand(pattern, sample=samples)] for a pattern in [{sample}]. *)
Definition expand (pattern : string -> string) (values : list string)
  : list string :=
  map pattern values.

Definition qc_per_sample_multiqc_input : list string :=
  expand (fun sample =>
            qc_dir C +:+ sample +:+ "/fastqc_per_sample/" +:+ sample +:+ ".R2.trimmed.filtered_fastqc.zip")
         (samples C).

Definition qc_per_sample_multiqc_output : string :=
  qc_dir C +:+ "multiQC_per_sample/multiqc_report.html".

Definition qc_per_sample_multiqc_log : string :=
  qc_dir C +:+ "logs/qc_per_sample_multiqc.log".

Definition qc_per_sample_multiqc_script : list cmd :=
  let out_dir := Path.dirname qc_per_sample_multiqc_output in
  [ Activate (envs_qc C);
    Multiqc out_dir
      [qc_dir C +:+ "/*/fastqc_per_sample"; qc_dir C +:+ "/logs"]
      qc_per_sample_multiqc_log ].

Definition qc_per_sample_multiqc_run (T : tools) (cwd : string) (fs : FS)
  : run :=
  shell T cwd qc_per_sample_multiqc_script fs.

(** *** rule qc *)

Definition qc_input : list string :=
  expand (fun sample => qc_dir C +:+ sample +:+ "/" +:+ trimmer C +:+ "_trimmed/" +:+ sample +:+ ".trimmed.R1.fastq.gz") (samples C)
  ++ expand (fun sample => qc_dir C +:+ sample +:+ "/" +:+ trimmer C +:+ "_trimmed/" +:+ sample +:+ ".trimmed.R2.fastq.gz") (samples C)
  ++ expand (fun sample => qc_dir C +:+ sample +:+ "/filtered/" +:+ sample +:+ ".R1.trimmed.filtered.fastq.gz") (samples C)
  ++ expand (fun sample => qc_dir C +:+ sample +:+ "/filtered/" +:+ sample +:+ ".R2.trimmed.filtered.fastq.gz") (samples C)
  ++ [qc_dir C +:+ "multiQC_per_sample/multiqc_report.html"].

(** *** The rules as the workflow engine sees them *)

Inductive job :=
| QcAtropos (sample trimmer : string)
| QcFilter (sample : string)
| QcPerSampleFastqc (sample : string)
| QcPerSampleMultiqc
| Qc.

Definition job_input (j : job) : list string :=
  match j with
  | QcAtropos sample _ =>
      [forward (qc_atropos_input sample); reverse (qc_atropos_input sample)]
  | QcFilter sample =>
      [forward (qc_filter_input sample); reverse (qc_filter_input sample)]
  | QcPerSampleFastqc sample =>
      [forward (qc_per_sample_fastqc_input sample);
       reverse (qc_per_sample_fastqc_input sample)]
  | QcPerSampleMultiqc => qc_per_sample_multiqc_input
  | Qc => qc_input
  end.

Definition job_output (j : job) : list string :=
  match j with
  | QcAtropos sample trimmer =>
      [forward (qc_atropos_output sample trimmer);
       reverse (qc_atropos_output sample trimmer)]
  | QcFilter sample =>
      [forward (qc_filter_output sample); reverse (qc_filter_output sample)]
  | QcPerSampleFastqc sample =>
      [html (qc_per_sample_fastqc_output sample);
       zip (qc_per_sample_fastqc_output sample)]
  | QcPerSampleMultiqc => [qc_per_sample_multiqc_output]
  | Qc => []
  end.

(** The run block of a job; [temp_dir] is the scratch directory's name,
    for the blocks that make one. *)
Definition job_run (T : tools) (cwd : string) (j : job) (temp_dir : string)
  (fs : FS) : run :=
  match j with
  | QcAtropos sample trimmer => qc_atropos_run T cwd sample trimmer temp_dir fs
  | QcFilter sample => qc_filter_run T cwd sample temp_dir fs
  | QcPerSampleFastqc sample => qc_per_sample_fastqc_run T cwd sample fs
  | QcPerSampleMultiqc => qc_per_sample_multiqc_run T cwd fs
  | Qc => ([], Success)
  end.

(** Whether a job takes the branch [params.filter_db is None]. *)
Definition links_through (j : job) : bool :=
  match j with
  | QcFilter sample =>
      match qc_filter_filter_db sample with
      | Some PyNone => true
      | _ => false
      end
  | _ => false
  end.

(** The files fastqc and multiqc write, as their scripts name them. *)
Definition qc_per_sample_fastqc_targets (sample : string) : list string :=
  let input := qc_per_sample_fastqc_input sample in
  let out_dir := Path.dirname (html (qc_per_sample_fastqc_output sample)) in
  [ qc_per_sample_fastqc_log sample;
    fastqc_html out_dir (forward input); fastqc_zip out_dir (forward input);
    fastqc_html out_dir (reverse input); fastqc_zip out_dir (reverse input) ].

Definition qc_per_sample_multiqc_targets : list string :=
  let out_dir := Path.dirname qc_per_sample_multiqc_output in
  [ qc_per_sample_multiqc_log; out_dir +:+ "/multiqc_report.html" ].

(** The state in which a job finds the paths it writes: a sample name
    that is one path component, a new scratch directory where one is
    used, no output yet where links are made, and otherwise outputs and
    logs that are regular files or absent. *)
Definition job_ready (cwd : string) (j : job) (temp_dir : string) (fs : FS)
  : Prop :=
  match j with
  | QcAtropos sample trimmer =>
      Path.slash_free sample = true
      /\ trim_ready cwd sample trimmer temp_dir fs
  | QcFilter sample =>
      match qc_filter_filter_db sample with
      | None => True
      | Some PyNone => link_ready cwd sample fs
      | Some _ => align_ready cwd sample temp_dir fs
      end
  | QcPerSampleFastqc sample =>
      Path.slash_free sample = true
      /\ Forall (fun p => plain fs (Path.key cwd p))
           (qc_per_sample_fastqc_targets sample)
  | QcPerSampleMultiqc =>
      Forall (fun p => plain fs (Path.key cwd p))
        qc_per_sample_multiqc_targets
  | Qc => True
  end.

(** The [{sample}] wildcard of a job. *)
Definition job_sample (j : job) : option string :=
  match j with
  | QcAtropos sample _ | QcFilter sample | QcPerSampleFastqc sample =>
      Some sample
  | QcPerSampleMultiqc | Qc => None
  end.

(** The [log:] files of a job. *)
Definition job_log (j : job) : list string :=
  match j with
  | QcAtropos sample _ => [qc_atropos_log sample]
  | QcFilter sample =>
      [qc_filter_log_bowtie sample; qc_filter_log_other sample]
  | QcPerSampleFastqc sample => [qc_per_sample_fastqc_log sample]
  | QcPerSampleMultiqc => [qc_per_sample_multiqc_log]
  | Qc => []
  end.

(** The paths outside the scratch directory that the script of a job
    names on the writing side. *)
Definition job_writes (j : job) : list string :=
  match j with
  | QcPerSampleFastqc sample => qc_per_sample_fastqc_targets sample
  | QcPerSampleMultiqc => qc_per_sample_multiqc_targets
  | _ => job_output j ++ job_log j
  end.


End templates.

(** The engine's view of a run of the workflow: the set of files that
    exist.  A job starts only when all its declared inputs exist, and
    leaves its declared outputs. *)
Inductive reachable (C : config) (start : gset string) : gset string -> Prop :=
| reach_start : reachable C start start
| reach_job (present : gset string) (j : job) :
    reachable C start present ->
    (forall p, p ∈ job_input C j -> p ∈ present) ->
    reachable C start (present ∪ list_to_set (job_output C j)).

(** What exists once the trimming, filtering and report jobs of the
    samples [l] have run, last sample first. *)
Fixpoint after_samples (C : config) (start : gset string) (l : list string)
  : gset string :=
  match l with
  | [] => start
  | sample :: rest =>
      after_samples C start rest
      ∪ list_to_set (job_output C (QcAtropos sample (trimmer C)))
      ∪ list_to_set (job_output C (QcFilter sample))
      ∪ list_to_set (job_output C (QcPerSampleFastqc sample))
  end.

End Rules.

(** ** A small workflow

    One sample, [S1], under the working directory [/home/u]; the raw
    reads are the two files of [fs_raw]. *)

Module Scenario.
Import Fs Shell Rules.

Definition entry (name : string) : Sam.fastq_read :=
  {| Sam.rname := name; Sam.rseq := "ACGT"; Sam.rqual := "IIII" |}.

Definition aligned (name : string) (flag : Z) : Sam.record :=
  {| Sam.qname := name; Sam.flag := flag;
     Sam.bases := "ACGT"; Sam.quals := "IIII" |}.

(** Four pairs come back from the aligner: [r1] and [r2] unmapped, [r3]
    with one mate mapped, [r4] mapped as a proper pair. *)
Definition sam_stream : list Sam.record :=
  [aligned "r2" 77; aligned "r2" 141; aligned "r1" 77; aligned "r1" 141;
   aligned "r3" 73; aligned "r3" 133; aligned "r4" 99; aligned "r4" 147].

Definition working : tools :=
  {| env_ok := fun _ => true;
     atropos := fun _ _ r1 r2 => Some (r1, r2, Text "trimmed");
     bowtie2 := fun _ _ _ _ => Some (sam_stream, Text "aligned");
     name_le := String.leb;
     other_log := fun _ => Text "";
     fastqc := fun _ _ => Some (Text "html", Text "zip");
     fastqc_log := fun _ _ => Text "";
     multiqc := fun _ => Some (Text "report", Text "") |}.

(** The same tools, with an aligner that exits non-zero. *)
Definition failing : tools :=
  {| env_ok := env_ok working;
     atropos := atropos working;
     bowtie2 := fun _ _ _ _ => None;
     name_le := name_le working;
     other_log := other_log working;
     fastqc := fastqc working;
     fastqc_log := fastqc_log working;
     multiqc := multiqc working |}.

Definition cfg (filter_db : pyval) : config :=
  {| qc_dir := "data/qc/";
     raw_dir := "data/raw/";
     trimmer := "atropos";
     samples := ["S1"];
     params_atropos := "-a GATCGGAAGAGC";
     envs_qc := "source activate qc";
     config_samples := {[ "S1" := {[ "filter_db" := filter_db ]} ]} |}.

(** A configuration whose entry for [S1] has no [filter_db] key. *)
Definition cfg_no_key : config :=
  {| qc_dir := "data/qc/";
     raw_dir := "data/raw/";
     trimmer := "atropos";
     samples := ["S1"];
     params_atropos := "-a GATCGGAAGAGC";
     envs_qc := "source activate qc";
     config_samples := {[ "S1" := ∅ ]} |}.

Definition cwd : string := "/home/u".

Definition fs_raw : FS :=
  {[ ["home"; "u"; "data"; "raw"; "S1"; "combined_reads"; "S1.R1.fastq.gz"]
       := File (Gz (Fastq [entry "a/1"]));
     ["home"; "u"; "data"; "raw"; "S1"; "combined_reads"; "S1.R2.fastq.gz"]
       := File (Gz (Fastq [entry "a/2"])) ]}.

(** After trimming. *)
Definition fs_trimmed : FS :=
  final fs_raw (qc_atropos_run (cfg PyNone) working cwd "S1" "atropos" "/tmp/tmp1" fs_raw).

(** The same tools, with an environment that cannot be activated. *)
Definition no_env : tools :=
  {| env_ok := fun _ => false;
     atropos := atropos working;
     bowtie2 := bowtie2 working;
     name_le := name_le working;
     other_log := other_log working;
     fastqc := fastqc working;
     fastqc_log := fastqc_log working;
     multiqc := multiqc working |}.

(** After the filter step, without a database and with one. *)
Definition fs_linked : FS :=
  final fs_trimmed
    (qc_filter_run (cfg PyNone) working cwd "S1" "/tmp/tmp2" fs_trimmed).

Definition fs_filtered : FS :=
  final fs_trimmed
    (qc_filter_run (cfg (PyStr "/db/host")) working cwd "S1" "/tmp/tmp2"
       fs_trimmed).

(** After the per-sample reports, and after the combined report. *)
Definition fs_reported : FS :=
  final fs_linked
    (qc_per_sample_fastqc_run (cfg PyNone) working cwd "S1" fs_linked).

Definition fs_combined : FS :=
  final fs_reported
    (qc_per_sample_multiqc_run (cfg PyNone) working cwd fs_reported).

(** The engine's view: the raw reads exist, then the four jobs run. *)
Definition raw_files : gset string :=
  list_to_set (job_input (cfg PyNone) (QcAtropos "S1" "atropos")).

Definition after (j : job) (present : gset string) : gset string :=
  present ∪ list_to_set (job_output (cfg PyNone) j).

Definition all_done : gset string :=
  after QcPerSampleMultiqc
    (after (QcPerSampleFastqc "S1")
       (after (QcFilter "S1") (after (QcAtropos "S1" "atropos") raw_files))).

End Scenario.

(** * Facts about the model *)

(** ** Strings *)

Section string_facts.

Lemma sapp_nil_l (s : string) : "" +:+ s = s.
Proof. reflexivity. Qed.

Lemma sapp_cons (c : ascii) (a b : string) :
  String c a +:+ b = String c (a +:+ b).
Proof. reflexivity. Qed.

Lemma sapp_nil_r (s : string) : s +:+ "" = s.
Proof. induction s as [|c s IH]; [done|]. by rewrite sapp_cons, IH. Qed.

Lemma sapp_assoc (a b c : string) : (a +:+ b) +:+ c = a +:+ b +:+ c.
Proof.
  induction a as [|x a IH]; [done|]. by rewrite !sapp_cons, IH.
Qed.

Lemma sapp_length (a b : string) :
  String.length (a +:+ b) = (String.length a + String.length b)%nat.
Proof.
  induction a as [|x a IH]; [done|]. rewrite sapp_cons. simpl. by rewrite IH.
Qed.

Lemma sapp_eq_nil (a b : string) : a +:+ b = "" -> a = "" /\ b = "".
Proof. destruct a; [done|]. by rewrite sapp_cons. Qed.

(** Two strings that agree have the same endings of a given length. *)
Lemma sapp_inj_tail (a b s t : string) :
  String.length s = String.length t -> a +:+ s = b +:+ t -> a = b /\ s = t.
Proof.
  intros Hlen. revert b. induction a as [|x a IH]; intros [|y b] Heq.
  - done.
  - apply (f_equal String.length) in Heq.
    rewrite sapp_nil_l, sapp_cons in Heq. simpl in Heq.
    rewrite sapp_length in Heq. lia.
  - apply (f_equal String.length) in Heq.
    rewrite sapp_nil_l, sapp_cons in Heq. simpl in Heq.
    rewrite sapp_length in Heq. lia.
  - rewrite !sapp_cons in Heq. injection Heq as -> Heq.
    destruct (IH _ Heq) as [-> ->]. done.
Qed.

Lemma sapp_neq_tail (a b s t : string) :
  String.length s = String.length t -> s <> t -> a +:+ s <> b +:+ t.
Proof. intros Hlen Hne Heq. by destruct (sapp_inj_tail _ _ _ _ Hlen Heq). Qed.

End string_facts.

(** ** os.path *)

Section path_facts.
Import Path.

Lemma is_slash_true (c : ascii) : is_slash c = true -> c = "/"%char.
Proof. unfold is_slash. by intros ?%Ascii.eqb_eq. Qed.

Lemma split_slash_nonempty (p : string) : split_slash p <> [].
Proof.
  induction p as [|c p IH]; simpl; [done|].
  destruct (is_slash c); [done|]. by destruct (split_slash p).
Qed.

Lemma split_slash_free (s : string) :
  slash_free s = true -> split_slash s = [s].
Proof.
  induction s as [|c s IH]; simpl; [done|].
  intros [Hc Hs]%andb_true_iff. apply negb_true_iff in Hc.
  rewrite Hc, (IH Hs). done.
Qed.

(** Splitting distributes over a slash. *)
Lemma split_slash_app (a b : string) :
  split_slash (a +:+ String "/" b) = split_slash a ++ split_slash b.
Proof.
  induction a as [|c a IH]; [done|].
  rewrite sapp_cons. simpl. rewrite IH.
  destruct (is_slash c); [done|].
  pose proof (split_slash_nonempty a). by destruct (split_slash a).
Qed.

(** A slash-free ending lengthens the last component. *)
Lemma split_slash_ending (a s : string) :
  slash_free s = true ->
  exists init c, split_slash a = init ++ [c]
                 /\ split_slash (a +:+ s) = init ++ [c +:+ s].
Proof.
  intros Hs. induction a as [|x a (init & c & Ha & Has)].
  - exists [], "". split; [done|]. rewrite sapp_nil_l. by apply split_slash_free.
  - rewrite sapp_cons. simpl. rewrite Ha, Has. destruct (is_slash x).
    + by exists ("" :: init), c.
    + destruct init as [|i init]; simpl.
      * by exists [], (String x c).
      * by exists (String x i :: init), c.
Qed.

Lemma split_slash_all_free (p : string) :
  Forall (fun c => slash_free c = true) (split_slash p).
Proof.
  induction p as [|x p IH]; simpl; [by repeat constructor|].
  destruct (is_slash x) eqn:Hx; [by constructor|].
  pose proof (split_slash_nonempty p).
  destruct (split_slash p) as [|h t]; [done|].
  inversion IH; subst. constructor; [|done]. simpl. by rewrite Hx.
Qed.

Lemma slash_free_app (a b : string) :
  slash_free (a +:+ b) = slash_free a && slash_free b.
Proof.
  induction a as [|x a IH]; [done|].
  rewrite sapp_cons. simpl. by rewrite IH, andb_assoc.
Qed.

Lemma dots_app (a b : string) : dots (a +:+ b) = dots a && dots b.
Proof.
  induction a as [|x a IH]; [done|].
  rewrite sapp_cons. simpl. by rewrite IH, andb_assoc.
Qed.

(** A component that ends in a file-name ending is clean. *)
Lemma clean_ending (c s : string) :
  slash_free c = true -> ending s = true -> clean (c +:+ s) = true.
Proof.
  intros Hc [Hs Hd]%andb_true_iff. apply negb_true_iff in Hd.
  unfold clean. rewrite slash_free_app, Hc, Hs. simpl.
  apply negb_true_iff.
  assert (dots (c +:+ s) = false) as Hcs.
  { rewrite dots_app, Hd. apply andb_false_r. }
  repeat (apply orb_false_iff; split);
    apply bool_decide_eq_false; intros Heq; by rewrite Heq in Hcs.
Qed.

Lemma clean_slash_free (c : string) : clean c = true -> slash_free c = true.
Proof. by intros [? _]%andb_true_iff. Qed.

(** The normalisation loop over a concatenation. *)
Lemma norm_loop_app (b : bool) (l1 l2 st : list string) :
  norm_loop b (l1 ++ l2) st = norm_loop b l2 (rev (norm_loop b l1 st)).
Proof.
  revert st. induction l1 as [|c l1 IH]; intros st; simpl.
  - by rewrite rev_involutive.
  - repeat case_match; apply IH.
Qed.

Lemma norm_loop_clean_one (b : bool) (c : string) (st : list string) :
  clean c = true -> norm_loop b [c] st = rev st ++ [c].
Proof.
  intros [_ Hc]%andb_true_iff. apply negb_true_iff in Hc.
  apply orb_false_iff in Hc as [Hc H2]. apply orb_false_iff in Hc as [H0 H1].
  simpl. rewrite H0, H1, H2. done.
Qed.

Lemma norm_loop_snoc (b : bool) (l : list string) (c : string) :
  clean c = true -> norm_loop b (l ++ [c]) [] = norm_loop b l [] ++ [c].
Proof.
  intros Hc. rewrite norm_loop_app, norm_loop_clean_one by done.
  by rewrite rev_involutive.
Qed.

(** Clean components are what the loop leaves alone. *)
Lemma norm_loop_clean (l st : list string) :
  Forall (fun c => clean c = true) l ->
  norm_loop true l st = rev st ++ l.
Proof.
  intros Hl. revert st. induction Hl as [|c l Hc _ IH]; intros st; simpl.
  - by rewrite app_nil_r.
  - pose proof Hc as [_ Hc']%andb_true_iff. apply negb_true_iff in Hc'.
    apply orb_false_iff in Hc' as [Hc' H2].
    apply orb_false_iff in Hc' as [H0 H1].
    rewrite H0, H1, H2. simpl. rewrite IH. simpl. by rewrite <- app_assoc.
Qed.

Lemma Forall_clean_tail (st : list string) :
  Forall (fun c => clean c = true) st ->
  Forall (fun c => clean c = true) (tail st).
Proof. intros H. destruct st; [done|]. by inversion H. Qed.

(** From the root, the loop leaves clean components only. *)
Lemma norm_loop_all_clean (l st : list string) :
  Forall (fun c => slash_free c = true) l ->
  Forall (fun c => clean c = true) st ->
  Forall (fun c => clean c = true) (norm_loop true l st).
Proof.
  intros Hl. revert st. induction Hl as [|c l Hc _ IH]; intros st Hst; simpl.
  - by apply Forall_rev.
  - destruct (bool_decide (c = "") || bool_decide (c = ".")) eqn:H01;
      [by apply IH|].
    destruct (bool_decide (c = "..")) eqn:H2; simpl.
    + assert (bool_decide (head st = Some "..") = false) as ->.
      { apply bool_decide_eq_false. destruct st as [|x st]; [done|].
        simpl. intros [= ->]. by inversion Hst. }
      by apply IH, Forall_clean_tail.
    + apply IH. constructor; [|done].
      unfold clean. by rewrite Hc, H01, H2.
Qed.

(** [join] keeps the ending of its second argument. *)
Lemma join_ending (cwd x s : string) :
  exists y, join cwd (x +:+ s) = y +:+ s.
Proof.
  unfold join. destruct (isabs (x +:+ s)); [by exists x|].
  destruct (bool_decide (cwd = "") || ends_with_slash cwd).
  - exists (cwd +:+ x). by rewrite sapp_assoc.
  - exists (cwd +:+ "/" +:+ x). by rewrite !sapp_assoc.
Qed.

(** The file named by a path with a file-name ending has a last
    component with that ending. *)
Lemma key_ending (cwd x s : string) :
  ending s = true ->
  exists K c, key cwd (x +:+ s) = K ++ [c +:+ s].
Proof.
  intros Hs. unfold key. destruct (join_ending cwd x s) as [y ->].
  pose proof Hs as [Hfree _]%andb_true_iff.
  destruct (split_slash_ending y s Hfree) as (init & c & Hy & ->).
  exists (norm_loop true init []), c.
  apply norm_loop_snoc, clean_ending; [|done].
  pose proof (split_slash_all_free y) as Hall. rewrite Hy in Hall.
  apply Forall_app in Hall as [_ Hall]. by inversion Hall.
Qed.

(** Paths with different endings of one length name different files. *)
Lemma key_neq_ending (cwd x y s t : string) :
  ending s = true -> ending t = true ->
  String.length s = String.length t -> s <> t ->
  key cwd (x +:+ s) <> key cwd (y +:+ t).
Proof.
  intros Hs Ht Hlen Hne Heq.
  destruct (key_ending cwd x s Hs) as (K1 & c1 & H1).
  destruct (key_ending cwd y t Ht) as (K2 & c2 & H2).
  rewrite H1, H2 in Heq. apply app_inj_tail in Heq as [_ [= Heq]].
  by apply (sapp_neq_tail c1 c2 s t).
Qed.

Lemma isabs_app (a b : string) : a <> "" -> isabs (a +:+ b) = isabs a.
Proof. by destruct a. Qed.

Lemma join_in_dir (cwd d c : string) :
  d <> "" -> join cwd (d +:+ String "/" c) = join cwd d +:+ String "/" c.
Proof.
  intros Hd. unfold join. rewrite isabs_app by done.
  destruct (isabs d); [done|].
  destruct (bool_decide (cwd = "") || ends_with_slash cwd);
    by rewrite !sapp_assoc.
Qed.

(** A clean name in a directory: one component below it. *)
Lemma key_in_dir (cwd d c : string) :
  d <> "" -> clean c = true ->
  key cwd (d +:+ "/" +:+ c) = key cwd d ++ [c].
Proof.
  intros Hd Hc. unfold key.
  change ("/" +:+ c) with (String "/" c).
  rewrite join_in_dir, split_slash_app by done.
  rewrite (split_slash_free c) by by apply clean_slash_free.
  by apply norm_loop_snoc.
Qed.

Lemma join_slash_cons (c : string) (cs : list string) :
  cs <> [] -> join_slash (c :: cs) = c +:+ String "/" (join_slash cs).
Proof. by destruct cs. Qed.

Lemma split_join_slash (cs : list string) :
  cs <> [] -> Forall (fun c => slash_free c = true) cs ->
  split_slash (join_slash cs) = cs.
Proof.
  intros Hne Hall. induction Hall as [|c cs Hc Hall IH]; [done|].
  destruct cs as [|c' cs].
  - by apply split_slash_free.
  - rewrite join_slash_cons, split_slash_app by done.
    rewrite (split_slash_free c), IH by done. done.
Qed.

Lemma norm_loop_skip_empty (n : nat) (l st : list string) :
  norm_loop true (replicate n "" ++ l) st = norm_loop true l st.
Proof. induction n as [|n IH]; [done|]. by simpl. Qed.

Lemma split_slashes (n : nat) (p : string) :
  split_slash (slashes n +:+ p) = replicate n "" ++ split_slash p.
Proof.
  induction n as [|n IH]; [done|].
  change (slashes (S n) +:+ p) with (String "/" (slashes n +:+ p)).
  change (replicate (S n) "" ++ split_slash p)
    with ("" :: (replicate n "" ++ split_slash p)).
  by rewrite <- IH.
Qed.

Lemma initial_slashes_abs (p : string) :
  isabs p = true -> exists n, initial_slashes p = S n.
Proof.
  destruct p as [|c1 [|c2 [|c3 p]]]; simpl; [done|..]; intros ->;
    repeat case_match; eauto.
Qed.

Lemma join_abs (cwd p : string) : isabs cwd = true -> isabs (join cwd p) = true.
Proof.
  intros Hcwd. unfold join. destruct (isabs p) eqn:Hp; [done|].
  destruct cwd as [|c cwd]; [done|].
  by destruct (bool_decide (String c cwd = "") || ends_with_slash (String c cwd)).
Qed.

Lemma join_of_abs (cwd p : string) : isabs p = true -> join cwd p = p.
Proof. intros Hp. unfold join. by rewrite Hp. Qed.

(** The path [os.path.abspath] returns names the file its argument
    names. *)
Lemma key_abspath (cwd p : string) :
  isabs cwd = true -> key cwd (abspath cwd p) = key cwd p.
Proof.
  intros Hcwd. unfold abspath.
  assert ((if isabs p then p else join cwd p) = join cwd p) as ->.
  { destruct (isabs p) eqn:Hp; [|done]. by rewrite join_of_abs. }
  pose proof (join_abs cwd p Hcwd) as Habs.
  unfold key at 2. set (q := join cwd p) in *.
  unfold normpath.
  destruct (initial_slashes_abs q Habs) as [n Hn].
  rewrite bool_decide_eq_false_2 by (by destruct q).
  rewrite Hn. simpl negb.
  set (comps := norm_loop true (split_slash q) []).
  assert (Forall (fun c => clean c = true) comps) as Hclean.
  { apply norm_loop_all_clean; [apply split_slash_all_free | constructor]. }
  rewrite bool_decide_eq_false_2 by done.
  unfold key. rewrite join_of_abs by done.
  rewrite split_slashes, norm_loop_skip_empty.
  destruct (decide (comps = [])) as [->|Hne]; [done|].
  rewrite split_join_slash; [| done |].
  - by rewrite norm_loop_clean.
  - eapply Forall_impl; [exact Hclean|]. intros c. apply clean_slash_free.
Qed.

Lemma isabs_slashes (n : nat) (p : string) : isabs (slashes (S n) +:+ p) = true.
Proof. done. Qed.

Lemma abspath_abs (cwd p : string) :
  isabs cwd = true -> isabs (abspath cwd p) = true.
Proof.
  intros Hcwd. unfold abspath.
  assert ((if isabs p then p else join cwd p) = join cwd p) as ->.
  { destruct (isabs p) eqn:Hp; [|done]. by rewrite join_of_abs. }
  pose proof (join_abs cwd p Hcwd) as Habs. set (q := join cwd p) in *.
  unfold normpath. destruct (initial_slashes_abs q Habs) as [n ->].
  rewrite bool_decide_eq_false_2 by (by destruct q).
  by rewrite bool_decide_eq_false_2.
Qed.

Lemma key_of_abs (d cwd p : string) : isabs p = true -> key d p = key cwd p.
Proof. intros Hp. unfold key. by rewrite !join_of_abs. Qed.

Lemma rsplit_slash_free (s : string) :
  slash_free s = true -> rsplit_slash s = ("", s).
Proof.
  induction s as [|c s IH]; simpl; [done|].
  intros [Hc Hs]%andb_true_iff. apply negb_true_iff in Hc.
  by rewrite (IH Hs), Hc.
Qed.

Lemma rsplit_slash_head (x t : string) :
  (rsplit_slash (x +:+ String "/" t)).1 <> "".
Proof.
  induction x as [|c x IH].
  - rewrite sapp_nil_l. simpl. destruct (rsplit_slash t) as [h t'].
    by destruct (bool_decide (h = "")).
  - rewrite sapp_cons. simpl.
    destruct (rsplit_slash (x +:+ String "/" t)) as [h t'].
    simpl in IH. by rewrite bool_decide_eq_false_2.
Qed.

(** Splitting at the last slash. *)
Lemma rsplit_slash_app (x t : string) :
  slash_free t = true ->
  rsplit_slash (x +:+ String "/" t) = (x +:+ "/", t).
Proof.
  intros Ht. induction x as [|c x IH].
  - rewrite !sapp_nil_l. simpl. by rewrite (rsplit_slash_free t Ht).
  - rewrite !sapp_cons. simpl. rewrite IH.
    rewrite bool_decide_eq_false_2; [done|].
    by intros [_ ?]%sapp_eq_nil.
Qed.

Lemma basename_in_dir (x t : string) :
  slash_free t = true -> basename (x +:+ "/" +:+ t) = t.
Proof.
  intros Ht. unfold basename. change ("/" +:+ t) with (String "/" t).
  by rewrite (rsplit_slash_app x t Ht).
Qed.

Lemma basename_slash_free (p : string) : slash_free (basename p) = true.
Proof.
  unfold basename. induction p as [|c p IH]; [done|]. simpl.
  destruct (rsplit_slash p) as [h t]. simpl in IH.
  destruct (bool_decide (h = "")) eqn:Hh; [|done].
  destruct (is_slash c) eqn:Hc; [done|]. simpl. by rewrite Hc.
Qed.

(** The base name of a path with a slash-free ending has that ending. *)
Lemma basename_ending (x s : string) :
  slash_free s = true -> exists c, basename (x +:+ s) = c +:+ s.
Proof.
  intros Hs. unfold basename. induction x as [|a x [c IH]].
  - exists "". by rewrite sapp_nil_l, rsplit_slash_free.
  - rewrite sapp_cons. simpl.
    destruct (rsplit_slash (x +:+ s)) as [h t]. simpl in IH. subst t.
    destruct (bool_decide (h = "")); [|by exists c].
    destruct (is_slash a); [by exists c|by exists (String a c)].
Qed.

Lemma basename_clean (x s : string) :
  ending s = true -> clean (basename (x +:+ s)) = true.
Proof.
  intros Hs. pose proof Hs as [Hfree _]%andb_true_iff.
  destruct (basename_ending x s Hfree) as [c Hc].
  pose proof (basename_slash_free (x +:+ s)) as Hb. rewrite Hc in *.
  rewrite slash_free_app in Hb. apply andb_true_iff in Hb as [Hb _].
  by apply clean_ending.
Qed.

End path_facts.

(** ** SAM records *)

Section sam_facts.
Import Sam.

Lemma land_sub (x m b : Z) : Z.land x m = m -> Z.land x (Z.land m b) = Z.land m b.
Proof. intros H. by rewrite Z.land_assoc, H. Qed.

(** What [-f 12 -F 256] keeps: records flagged unmapped, with the mate
    flagged unmapped, that are not secondary alignments. *)
Lemma view_keep_12_256 (r : record) :
  view_keep 12 256 r = true ->
  has_flag UNMAP r = true /\ has_flag MUNMAP r = true
  /\ has_flag SECONDARY r = false.
Proof.
  unfold view_keep, has_flag, UNMAP, MUNMAP, SECONDARY.
  intros [Hf HF]%andb_true_iff.
  apply Z.eqb_eq in Hf. apply Z.eqb_eq in HF.
  pose proof (land_sub _ _ 4 Hf) as H4. pose proof (land_sub _ _ 8 Hf) as H8.
  change (Z.land 12 4) with 4 in H4. change (Z.land 12 8) with 8 in H8.
  rewrite H4, H8, HF. done.
Qed.

Lemma insert_by_name_In le (r x : record) (rs : list record) :
  In x (insert_by_name le r rs) <-> x = r \/ In x rs.
Proof.
  induction rs as [|r' rs IH]; simpl; [intuition|].
  destruct (le (qname r) (qname r')); simpl; [intuition|].
  rewrite IH. intuition.
Qed.

(** Sorting keeps the records. *)
Lemma sort_by_name_In le (x : record) (rs : list record) :
  In x (sort_by_name le rs) <-> In x rs.
Proof.
  induction rs as [|r rs IH]; simpl; [done|].
  rewrite insert_by_name_In, IH. intuition.
Qed.

(** Every pair [bamtofastq] writes comes from two records of one name,
    both flagged as paired. *)
Lemma bamtofastq_pairs (rs : list record) (x y : fastq_read) :
  In (x, y) (bamtofastq rs) ->
  exists a b, In a rs /\ In b rs /\ qname a = qname b
              /\ has_flag PAIRED a = true /\ has_flag PAIRED b = true
              /\ x = to_read "/1" a /\ y = to_read "/2" b.
Proof.
  assert (forall rs,
    (forall x y, In (x, y) (bamtofastq rs) ->
       exists a b, In a rs /\ In b rs /\ qname a = qname b
              /\ has_flag PAIRED a = true /\ has_flag PAIRED b = true
              /\ x = to_read "/1" a /\ y = to_read "/2" b)
    /\ (forall r x y, In (x, y) (bamtofastq (r :: rs)) ->
       exists a b, In a (r :: rs) /\ In b (r :: rs) /\ qname a = qname b
              /\ has_flag PAIRED a = true /\ has_flag PAIRED b = true
              /\ x = to_read "/1" a /\ y = to_read "/2" b)) as H.
  { clear. induction rs as [|b2 rs [IH1 IH2]].
    - split; [done|]. intros r x y. by simpl.
    - split; [by apply IH2|]. intros b1 x y. simpl.
      destruct (bool_decide (qname b1 = qname b2)) eqn:Hq.
      + apply bool_decide_eq_true in Hq.
        destruct (has_flag PAIRED b1 && has_flag PAIRED b2) eqn:Hp.
        * apply andb_true_iff in Hp as [Hp1 Hp2]. intros [Hin|Hin].
          -- destruct (has_flag READ1 b1); injection Hin as <- <-.
             ++ exists b1, b2. simpl. intuition.
             ++ exists b2, b1. simpl. intuition.
          -- destruct (IH1 _ _ Hin) as (a & b & ?). exists a, b.
             simpl. intuition.
        * intros Hin. destruct (IH1 _ _ Hin) as (a & b & ?). exists a, b.
          simpl. intuition.
      + intros Hin. destruct (IH2 _ _ _ Hin) as (a & b & ?). exists a, b.
        simpl in *. intuition. }
  intros Hin. by apply (H rs).
Qed.


End sam_facts.

(** ** The file system *)

Section fs_facts.
Import Path Fs.
Implicit Types (fs : FS) (k : list string) (n : node).

Lemma plain_absent fs k : fs !! k = None -> plain fs k.
Proof. unfold plain. by intros ->. Qed.

Lemma plain_file fs k c : fs !! k = Some (File c) -> plain fs k.
Proof. unfold plain. by intros ->. Qed.

Lemma plain_insert fs k k' n : regular n -> plain fs k -> plain (<[k' := n]> fs) k.
Proof.
  intros Hn Hk. unfold plain. destruct (decide (k' = k)) as [->|Hne].
  - rewrite lookup_insert_eq. by destruct n.
  - by rewrite lookup_insert_ne.
Qed.

Lemma plain_insert_ne fs k k' n : k' <> k -> plain fs k -> plain (<[k' := n]> fs) k.
Proof. intros Hne Hk. unfold plain. by rewrite lookup_insert_ne. Qed.

Lemma resolve_plain fuel fs k : plain fs k -> resolve fuel fs k = Some k.
Proof.
  unfold plain. intros Hk. destruct fuel; simpl;
    by destruct (fs !! k) as [[]|].
Qed.

Lemma resolve_link fuel fs k t :
  fs !! k = Some (Link t) ->
  resolve (S fuel) fs k = resolve fuel fs (link_dest k t).
Proof. intros H. simpl. by rewrite H. Qed.

Lemma locate_link cwd fs p t :
  fs !! key cwd p = Some (Link t) -> plain fs (link_dest (key cwd p) t) ->
  locate cwd fs p = Some (link_dest (key cwd p) t).
Proof.
  intros Hp Ht. unfold locate, MAXSYMLINKS.
  by rewrite (resolve_link _ _ _ _ Hp), resolve_plain.
Qed.

Lemma locate_plain cwd fs p :
  plain fs (key cwd p) -> locate cwd fs p = Some (key cwd p).
Proof. apply resolve_plain. Qed.

Lemma put_plain cwd fs p n :
  plain fs (key cwd p) -> put cwd fs p n = Some (<[key cwd p := n]> fs).
Proof.
  intros Hp. unfold put. rewrite locate_plain by done.
  unfold plain in Hp. by destruct (fs !! key cwd p) as [[]|].
Qed.

Lemma read_plain cwd fs p :
  plain fs (key cwd p) ->
  read cwd fs p = match fs !! key cwd p with
                  | Some (File c) => Some c
                  | _ => None
                  end.
Proof. intros Hp. unfold read. by rewrite locate_plain. Qed.

Lemma read_file cwd fs p c :
  fs !! key cwd p = Some (File c) -> read cwd fs p = Some c.
Proof.
  intros Hp. rewrite read_plain by by eapply plain_file. by rewrite Hp.
Qed.

Lemma cp_plain cwd fs src dst c :
  read cwd fs src = Some c -> plain fs (key cwd dst) ->
  cp cwd fs src dst = Some (<[key cwd dst := File c]> fs).
Proof.
  intros Hsrc Hdst. unfold cp. rewrite Hsrc, locate_plain by done.
  unfold plain in Hdst. by destruct (fs !! key cwd dst) as [[]|].
Qed.

Lemma ln_s_absent cwd fs target link :
  fs !! key cwd link = None ->
  ln_s cwd fs target link = Some (<[key cwd link := Link target]> fs).
Proof. intros Hl. unfold ln_s. by rewrite Hl. Qed.

Lemma vacant_lookup fs k k' : vacant k fs -> k `prefix_of` k' -> fs !! k' = None.
Proof.
  intros Hv Hp. destruct (fs !! k') as [n|] eqn:Hk; [|done].
  by destruct (Hv k' n Hk).
Qed.

Lemma vacant_plain fs k k' : vacant k fs -> k `prefix_of` k' -> plain fs k'.
Proof. intros. by eapply plain_absent, vacant_lookup. Qed.

Lemma rmtree_insert_under fs k k' n :
  k `prefix_of` k' -> rmtree k (<[k' := n]> fs) = rmtree k fs.
Proof. intros Hp. unfold rmtree. apply map_filter_insert_not. naive_solver. Qed.

Lemma rmtree_insert_outside fs k k' n :
  ~ k `prefix_of` k' -> rmtree k (<[k' := n]> fs) = <[k' := n]> (rmtree k fs).
Proof. intros Hp. unfold rmtree. by apply map_filter_insert_True. Qed.

Lemma rmtree_vacant fs k : vacant k fs -> rmtree k fs = fs.
Proof. intros Hv. unfold rmtree. apply map_filter_id. exact Hv. Qed.

(** After [rmtree], nothing is left at the directory or below it. *)
Lemma vacant_rmtree fs k : vacant k (rmtree k fs).
Proof.
  intros k' n Hk. unfold rmtree in Hk.
  by apply map_lookup_filter_Some in Hk as [_ ?].
Qed.

Lemma mkdtemp_vacant cwd fs tmp :
  vacant (key cwd tmp) fs ->
  mkdtemp cwd fs tmp = Some (<[key cwd tmp := Dir]> fs).
Proof. intros Hv. unfold mkdtemp. by rewrite bool_decide_eq_true_2. Qed.

Lemma mkdtemp_Some cwd fs tmp fs' :
  mkdtemp cwd fs tmp = Some fs' ->
  vacant (key cwd tmp) fs /\ fs' = <[key cwd tmp := Dir]> fs.
Proof.
  unfold mkdtemp. case_bool_decide; [|done]. by intros [= <-].
Qed.

Lemma prefix_snoc (k : list string) (c : string) : k `prefix_of` k ++ [c].
Proof. by exists [c]. Qed.

Lemma snoc_ne (k : list string) (c : string) : k ++ [c] <> k.
Proof.
  intros H. apply (f_equal length) in H. rewrite length_app in H. simpl in H. lia.
Qed.

Lemma snoc_inj_ne (k : list string) (c d : string) :
  c <> d -> k ++ [c] <> k ++ [d].
Proof. intros Hne H. by apply app_inv_head in H as [= ?]. Qed.

End fs_facts.

(** ** Shell scripts *)

Section shell_facts.
Import Path Fs Shell.
Implicit Types (fs : FS) (k : list string) (n : node).

Lemma plain_mark cwd targets fs k :
  plain fs k -> plain (mark cwd targets fs) k.
Proof.
  unfold mark. revert fs. induction targets as [|p targets IH]; intros fs Hk;
    [done|]. simpl. by apply IH, plain_insert.
Qed.


Lemma put_all_mark cwd fs targets :
  Forall (fun p => plain fs (key cwd p)) targets ->
  put_all cwd fs (map (fun p => (p, Partial)) targets)
  = Some (mark cwd targets fs).
Proof.
  unfold mark. revert fs.
  induction targets as [|p targets IH]; intros fs Hall; [done|].
  inversion Hall as [|? ? Hp Hrest]; subst. simpl.
  rewrite put_plain by done. apply IH.
  eapply Forall_impl; [exact Hrest|]. intros q Hq. by apply plain_insert.
Qed.

Lemma put_all_fill cwd fs outs :
  Forall (fun pc => plain fs (key cwd pc.1)) outs ->
  put_all cwd fs (map (fun pc => (pc.1, File pc.2)) outs)
  = Some (fill cwd outs fs).
Proof.
  unfold fill. revert fs.
  induction outs as [|[p c] outs IH]; intros fs Hall; [done|].
  inversion Hall as [|? ? Hp Hrest]; subst. simpl.
  rewrite put_plain by done. apply IH.
  eapply Forall_impl; [exact Hrest|]. intros q Hq. by apply plain_insert.
Qed.

(** A program whose targets are regular files or new: it leaves them
    partial, then complete. *)
Lemma produce_plain cwd fs targets prog :
  Forall (fun p => plain fs (key cwd p)) targets ->
  (forall outs, prog (mark cwd targets fs) = Some outs ->
     Forall (fun pc => plain fs (key cwd pc.1)) outs) ->
  produce cwd fs targets prog
  = match prog (mark cwd targets fs) with
    | Some outs =>
        ([mark cwd targets fs; fill cwd outs (mark cwd targets fs)], Success)
    | None => ([mark cwd targets fs], CalledProcessError)
    end.
Proof.
  intros Ht Houts. unfold produce. rewrite put_all_mark by done.
  destruct (prog (mark cwd targets fs)) as [outs|] eqn:Hprog; [|done].
  rewrite put_all_fill; [done|].
  eapply Forall_impl; [exact (Houts _ eq_refl)|].
  intros pc Hpc. by apply plain_mark.
Qed.

Lemma mark_snoc cwd targets p fs :
  mark cwd (targets ++ [p]) fs = <[key cwd p := Partial]> (mark cwd targets fs).
Proof. unfold mark. by rewrite fold_left_app. Qed.

Lemma fill_snoc cwd outs pc fs :
  fill cwd (outs ++ [pc]) fs = <[key cwd pc.1 := File pc.2]> (fill cwd outs fs).
Proof. unfold fill. by rewrite fold_left_app. Qed.


Lemma mark_lookup_notin cwd targets fs k :
  (forall p, p ∈ targets -> key cwd p <> k) ->
  mark cwd targets fs !! k = fs !! k.
Proof.
  induction targets as [|q targets IH] using rev_ind; [done|].
  intros Hk. rewrite mark_snoc, lookup_insert_ne.
  - apply IH. intros p Hp. apply Hk, elem_of_app. by left.
  - apply Hk, elem_of_app. right. by apply list_elem_of_singleton.
Qed.

Lemma fill_lookup_notin cwd outs fs k :
  (forall pc, pc ∈ outs -> key cwd pc.1 <> k) ->
  fill cwd outs fs !! k = fs !! k.
Proof.
  induction outs as [|q outs IH] using rev_ind; [done|].
  intros Hk. rewrite fill_snoc, lookup_insert_ne.
  - apply IH. intros p Hp. apply Hk, elem_of_app. by left.
  - apply Hk, elem_of_app. right. by apply list_elem_of_singleton.
Qed.





Lemma final_nil fs st : final fs ([], st) = fs.
Proof. done. Qed.

Lemma final_snoc fs tr s st : final fs (tr ++ [s], st) = s.
Proof. unfold final. simpl. apply last_last. Qed.

Lemma final_app fs tr tr' st st' :
  final fs (tr ++ tr', st) = final (final fs (tr, st')) (tr', st).
Proof.
  unfold final. simpl. revert fs. induction tr' as [|s tr' IH] using rev_ind;
    intros fs.
  - by rewrite app_nil_r.
  - by rewrite app_assoc, !last_last.
Qed.

Lemma shell_nil T cwd fs : shell T cwd [] fs = ([], Success).
Proof. done. Qed.

Lemma shell_cons_ok T cwd c rest fs tr :
  exec T cwd c fs = (tr, Success) ->
  shell T cwd (c :: rest) fs
  = (tr ++ (shell T cwd rest (List.last tr fs)).1,
     (shell T cwd rest (List.last tr fs)).2).
Proof. intros H. simpl. by rewrite H. Qed.

Lemma shell_cons_fail T cwd c rest fs tr st :
  exec T cwd c fs = (tr, st) -> st <> Success ->
  shell T cwd (c :: rest) fs = (tr, st).
Proof. intros H Hst. simpl. rewrite H. by destruct st. Qed.

Lemma shell_step T cwd c rest fs tr s tr' st :
  exec T cwd c fs = (tr, Success) -> List.last tr fs = s ->
  shell T cwd rest s = (tr', st) ->
  shell T cwd (c :: rest) fs = (tr ++ tr', st).
Proof. intros H <- H'. simpl. rewrite H. unfold final. simpl. by rewrite H'. Qed.

Lemma shell_stop T cwd c rest fs tr :
  exec T cwd c fs = (tr, CalledProcessError) ->
  shell T cwd (c :: rest) fs = (tr, CalledProcessError).
Proof. intros H. simpl. by rewrite H. Qed.

(** However its body ends, the block leaves nothing of the scratch
    directory. *)
Lemma with_tempdir_vacant cwd tmp body fs :
  vacant (key cwd tmp) fs ->
  vacant (key cwd tmp) (final fs (with_tempdir cwd tmp body fs)).
Proof.
  intros Hv. unfold with_tempdir. rewrite mkdtemp_vacant by done.
  rewrite (app_assoc [_] _ [_]), final_snoc. apply vacant_rmtree.
Qed.

Lemma with_tempdir_run cwd tmp body fs tr st :
  vacant (key cwd tmp) fs ->
  body (<[key cwd tmp := Dir]> fs) = (tr, st) ->
  with_tempdir cwd tmp body fs
  = (<[key cwd tmp := Dir]> fs
       :: tr ++ [rmtree (key cwd tmp)
                   (List.last tr (<[key cwd tmp := Dir]> fs))], st).
Proof.
  intros Hv Hbody. unfold with_tempdir. rewrite mkdtemp_vacant by done.
  by rewrite Hbody.
Qed.

Lemma exec_activate T cwd env fs :
  exec T cwd (Activate env) fs
  = ([], if env_ok T env then Success else CalledProcessError).
Proof. done. Qed.

Lemma exec_scp T cwd src dst fs c :
  read cwd fs src = Some c -> plain fs (key cwd dst) ->
  exec T cwd (Scp src dst) fs = ([<[key cwd dst := File c]> fs], Success).
Proof. intros Hsrc Hdst. unfold exec. by rewrite (cp_plain _ _ _ _ c). Qed.

Lemma exec_pigz T cwd src dst fs c :
  plain fs (key cwd dst) ->
  read cwd (<[key cwd dst := Partial]> fs) src = Some c ->
  exec T cwd (Pigz src dst) fs
  = ([<[key cwd dst := Partial]> fs;
      <[key cwd dst := File (Gz c)]> (<[key cwd dst := Partial]> fs)],
     Success).
Proof.
  intros Hdst Hsrc. unfold exec. rewrite produce_plain.
  - cbn [mark fold_left]. by rewrite Hsrc.
  - by repeat constructor.
  - cbn [mark fold_left]. rewrite Hsrc. intros outs [= <-].
    by repeat constructor.
Qed.

End shell_facts.

(** ** Endings of the path templates *)

Section ending_facts.
Import Path Shell.

Lemma strip_suffix_Some (suf s x : string) :
  strip_suffix suf s = Some x -> s = x +:+ suf.
Proof.
  revert x. induction s as [|c s IH]; intros x; simpl.
  - case_bool_decide; [|done]. intros [= <-]. by subst.
  - case_bool_decide as Heq; [intros [= <-]; by rewrite Heq|].
    destruct (strip_suffix suf s) as [y|]; [|done].
    intros [= <-]. by rewrite sapp_cons, (IH y).
Qed.

Lemma has_ending_lit (s suf x : string) :
  strip_suffix suf s = Some x -> has_ending s suf.
Proof. intros H. exists x. by apply strip_suffix_Some. Qed.

Lemma has_ending_check (s suf : string) :
  match strip_suffix suf s with Some _ => True | None => False end ->
  has_ending s suf.
Proof.
  destruct (strip_suffix suf s) as [x|] eqn:H; [|done].
  intros _. by eapply has_ending_lit.
Qed.

Lemma has_ending_app (a b s : string) :
  has_ending b s -> has_ending (a +:+ b) s.
Proof. intros [x ->]. exists (a +:+ x). by rewrite sapp_assoc. Qed.

Lemma has_ending_neq (p q s t : string) :
  has_ending p s -> has_ending q t ->
  String.length s = String.length t -> s <> t -> p <> q.
Proof. intros [x ->] [y ->]. apply sapp_neq_tail. Qed.

Lemma key_neq (cwd p q s t : string) :
  has_ending p s -> has_ending q t ->
  ending s = true -> ending t = true ->
  String.length s = String.length t -> s <> t ->
  key cwd p <> key cwd q.
Proof. intros [x ->] [y ->]. apply key_neq_ending. Qed.

End ending_facts.

Ltac closed_string s :=
  lazymatch s with
  | EmptyString => idtac
  | String _ ?r => closed_string r
  | ?a +:+ ?b => closed_string a; closed_string b
  end.

(** The ending is read off the longest closed tail of the path. *)
Ltac solve_ending :=
  lazymatch goal with
  | |- Path.has_ending ?s _ =>
      first [ closed_string s; apply has_ending_check; exact I
            | apply has_ending_app; solve_ending ]
  end.

(** [p] and [q] differ, by their endings [s] and [t]. *)
Ltac neq_by s t :=
  apply (has_ending_neq _ _ s t);
    [solve_ending | solve_ending | reflexivity | discriminate].

Ltac key_neq_by s t :=
  apply (key_neq _ _ _ s t);
    [solve_ending | solve_ending | reflexivity | reflexivity | reflexivity
    | discriminate].


(** Lookups in a state written as a chain of updates, with the
    disequalities of the keys among the hypotheses. *)
Ltac ne := first [assumption | apply not_eq_sym; assumption].

Ltac look :=
  repeat first [ rewrite lookup_insert_eq | rewrite lookup_insert_ne by ne ].

(** * The claims *)

Section statuses.
Import Path Fs Shell Rules.

Lemma produce_status cwd fs targets prog :
  (produce cwd fs targets prog).2 = Success
  \/ (produce cwd fs targets prog).2 = CalledProcessError.
Proof. unfold produce. repeat case_match; simpl; auto. Qed.

Lemma exec_status T cwd c fs :
  (exec T cwd c fs).2 = Success \/ (exec T cwd c fs).2 = CalledProcessError.
Proof.
  destruct c; simpl; try apply produce_status;
    unfold atomic; repeat case_match; simpl; auto.
Qed.

(** A script ends well or with the error of a failed command. *)
Lemma shell_status T cwd script fs :
  (shell T cwd script fs).2 = Success
  \/ (shell T cwd script fs).2 = CalledProcessError.
Proof.
  revert fs. induction script as [|c script IH]; intros fs; simpl; [auto|].
  destruct (exec_status T cwd c fs) as [H|H]; rewrite H; simpl; auto.
Qed.

Lemma with_tempdir_status cwd tmp body fs :
  (with_tempdir cwd tmp body fs).2 = OSError
  \/ exists fs', (with_tempdir cwd tmp body fs).2 = (body fs').2.
Proof. unfold with_tempdir. destruct (mkdtemp cwd fs tmp); simpl; eauto. Qed.

Lemma shell_not_KeyError T cwd script fs :
  (shell T cwd script fs).2 <> KeyError.
Proof. intros H. by destruct (shell_status T cwd script fs) as [H'|H']; rewrite H' in H. Qed.

Lemma scratch_not_KeyError T cwd tmp script fs :
  (with_tempdir cwd tmp (shell T cwd script) fs).2 <> KeyError.
Proof.
  intros H.
  destruct (with_tempdir_status cwd tmp (shell T cwd script) fs)
    as [H'|[fs' H']]; rewrite H' in H; [done|].
  by apply shell_not_KeyError in H.
Qed.

End statuses.

Section config_lookup.
Import Path Fs Shell Rules.

(** C10.  The link branch of qc_filter is the branch of a sample whose
    configuration entry exists and holds exactly [None] under
    [filter_db].  A sample without entry, or an entry without the key,
    makes the lookup fail: the task ends with a KeyError before any
    command runs, and that is the only way it ends so.  Any other value,
    a false one included, selects the alignment branch. *)
Theorem qc_filter_branch_by_lookup (C : config) (T : tools)
  (cwd sample temp_dir : string) (fs : FS) :
  let r := qc_filter_run C T cwd sample temp_dir fs in
  match config_samples C !! sample with
  | None => r = ([], KeyError)
  | Some entry =>
      match entry !! "filter_db" with
      | None => r = ([], KeyError)
      | Some PyNone => r = shell T cwd (qc_filter_link_script C cwd sample) fs
      | Some db =>
          r = with_tempdir cwd temp_dir
                (shell T cwd
                   (qc_filter_align_script C sample (py_str db) temp_dir)) fs
      end
  end
  /\ (r.2 = KeyError <-> qc_filter_filter_db C sample = None)
  /\ (r.2 = KeyError -> final fs r = fs).
Proof.
  intros r. subst r. unfold qc_filter_run, qc_filter_filter_db.
  destruct (config_samples C !! sample) as [entry|]; [|done].
  destruct (entry !! "filter_db") as [[| |]|]; try done;
    (split; [done|]); (split; [split; [|done]|]); intros H; exfalso;
    revert H; first [apply shell_not_KeyError | apply scratch_not_KeyError].
Qed.

End config_lookup.

Section scratch.
Import Path Fs Shell Rules.

Lemma with_tempdir_head cwd tmp body fs :
  vacant (key cwd tmp) fs ->
  head (with_tempdir cwd tmp body fs).1 = Some (<[key cwd tmp := Dir]> fs).
Proof. intros Hv. unfold with_tempdir. by rewrite mkdtemp_vacant. Qed.

(** C7.  A run of qc_atropos, or of qc_filter with a filter database,
    makes the scratch directory [temp_dir] as its first step, and in the
    state it ends in nothing is left at [temp_dir] or below it; this holds
    for every behaviour of the external tools, hence whether the script
    ends well or a command of it fails. *)
Theorem scratch_directory_removed (C : config) (T : tools)
  (cwd sample trimmer temp_dir : string) (fs : FS) :
  vacant (key cwd temp_dir) fs ->
  let made := <[key cwd temp_dir := Dir]> fs in
  let trim := qc_atropos_run C T cwd sample trimmer temp_dir fs in
  let filter := qc_filter_run C T cwd sample temp_dir fs in
  (head trim.1 = Some made /\ vacant (key cwd temp_dir) (final fs trim))
  /\ (forall db, qc_filter_filter_db C sample = Some db -> db <> PyNone ->
        head filter.1 = Some made
        /\ vacant (key cwd temp_dir) (final fs filter)).
Proof.
  intros Hv made trim filter. subst made trim filter. split.
  - split; [by apply with_tempdir_head | by apply with_tempdir_vacant].
  - intros db Hdb Hne. unfold qc_filter_run. rewrite Hdb.
    destruct db; [done|..];
      (split; [by apply with_tempdir_head | by apply with_tempdir_vacant]).
Qed.

(** The aligner fails, the run ends with an error, and the scratch
    directory is gone all the same. *)
Lemma scratch_directory_removed_witness :
  (qc_filter_run (Scenario.cfg (PyStr "/db/host")) Scenario.failing
     Scenario.cwd "S1" "/tmp/tmp2" Scenario.fs_trimmed).2 = CalledProcessError
  /\ vacant ["tmp"; "tmp2"]
       (final Scenario.fs_trimmed
          (qc_filter_run (Scenario.cfg (PyStr "/db/host")) Scenario.failing
             Scenario.cwd "S1" "/tmp/tmp2" Scenario.fs_trimmed)).
Proof.
  split; [vm_compute; reflexivity|].
  refine (proj2 (proj2 (scratch_directory_removed
            (Scenario.cfg (PyStr "/db/host")) Scenario.failing
            Scenario.cwd "S1" "atropos" "/tmp/tmp2" Scenario.fs_trimmed _)
          (PyStr "/db/host") _ _)).
  - apply (bool_decide_unpack _). vm_compute. exact I.
  - vm_compute. reflexivity.
  - discriminate.
Defined.

End scratch.

Section synchronisation.
Import Path Fs Shell Rules.

Lemma multiqc_output_owner (C : config) (j : job) :
  qc_per_sample_multiqc_output C ∈ job_output C j -> j = QcPerSampleMultiqc.
Proof.
  destruct j as [sample trimmer|sample|sample| |]; simpl; [..|done|];
    unfold qc_per_sample_multiqc_output; rewrite ?elem_of_cons, elem_of_nil;
    intros H; exfalso; revert H; simpl.
  - intros [H|[H|[]]]; revert H; neq_by "tml" ".gz".
  - intros [H|[H|[]]]; revert H; neq_by "tml" ".gz".
  - intros [H|[H|[]]]; revert H;
      [neq_by "_report.html" "_fastqc.html" | neq_by "tml" "zip"].
  - done.
Qed.

Lemma multiqc_input_spec (C : config) (p : string) :
  p ∈ job_input C QcPerSampleMultiqc
  <-> exists sample, sample ∈ samples C
                     /\ p = zip (qc_per_sample_fastqc_output C sample).
Proof.
  simpl. unfold qc_per_sample_multiqc_input, expand.
  rewrite list_elem_of_fmap.
  split; [intros (sample & -> & Hs) | intros (sample & Hs & ->)]; eauto.
Qed.

(** C6.  The declared input of qc_per_sample_multiqc is the list of the
    archives qc_per_sample_fastqc declares as output, one for each
    configured sample.  Hence, in every run of the workflow from a state
    without the combined report, where a job starts only when its
    declared inputs exist, the report exists only when the archive of
    every configured sample does. *)
Theorem multiqc_synchronisation (C : config) (start present : gset string) :
  reachable C start present ->
  qc_per_sample_multiqc_output C ∉ start ->
  job_input C QcPerSampleMultiqc
    = map (fun sample => zip (qc_per_sample_fastqc_output C sample))
          (samples C)
  /\ (qc_per_sample_multiqc_output C ∈ present ->
      forall sample, sample ∈ samples C ->
        zip (qc_per_sample_fastqc_output C sample) ∈ present).
Proof.
  intros Hreach Hstart. split; [done|].
  induction Hreach as [|present j Hreach IH Hready]; [done|].
  intros Hout sample Hs. apply elem_of_union in Hout as [Hout|Hout].
  - apply elem_of_union. left. by apply IH.
  - apply elem_of_list_to_set, multiqc_output_owner in Hout. subst j.
    apply elem_of_union. left. apply Hready, multiqc_input_spec. eauto.
Qed.

Lemma multiqc_synchronisation_witness :
  zip (qc_per_sample_fastqc_output (Scenario.cfg PyNone) "S1")
    ∈ Scenario.all_done.
Proof.
  assert (forall j (present : gset string),
            bool_decide (Forall (fun p => p ∈ present)
                           (job_input (Scenario.cfg PyNone) j)) = true ->
            forall p, p ∈ job_input (Scenario.cfg PyNone) j -> p ∈ present)
    as Hready.
  { intros j present H%bool_decide_eq_true p Hp.
    by apply (proj1 (Forall_forall _ _) H). }
  refine (proj2 (multiqc_synchronisation (Scenario.cfg PyNone)
                   Scenario.raw_files Scenario.all_done _ _) _ "S1" _).
  - unfold Scenario.all_done, Scenario.after.
    repeat (apply reach_job; [|apply Hready; vm_compute; reflexivity]).
    apply reach_start.
  - apply (bool_decide_unpack _). vm_compute. exact I.
  - apply (bool_decide_unpack _). vm_compute. exact I.
  - apply list_elem_of_here.
Defined.

End synchronisation.

Section report_names.
Import Path Fs Shell Rules.

Lemma all_slashes_app (a b : string) :
  all_slashes (a +:+ b) = all_slashes a && all_slashes b.
Proof.
  induction a as [|c a IH]; [done|].
  rewrite sapp_cons. simpl. by rewrite IH, andb_assoc.
Qed.

Lemma rstrip_slash_app (a b : string) :
  rstrip_slash b <> "" -> rstrip_slash (a +:+ b) = a +:+ rstrip_slash b.
Proof.
  intros Hb. induction a as [|c a IH]; [done|].
  rewrite !sapp_cons. simpl. rewrite IH.
  rewrite bool_decide_eq_false_2; [done|].
  by intros [_ ?]%sapp_eq_nil.
Qed.

(** The directory of a file directly below [d], when [d] ends in a
    name. *)
Lemma dirname_in_dir (a d t : string) :
  slash_free t = true ->
  all_slashes (d +:+ "/") = false -> rstrip_slash (d +:+ "/") = d ->
  d <> "" ->
  dirname (a +:+ d +:+ String "/" t) = a +:+ d.
Proof.
  intros Ht Hall Hstrip Hd. unfold dirname.
  rewrite <- sapp_assoc, (rsplit_slash_app _ t Ht). simpl.
  rewrite sapp_assoc, all_slashes_app, Hall, andb_false_r.
  rewrite bool_decide_eq_false_2.
  - simpl. rewrite rstrip_slash_app; by rewrite Hstrip.
  - intros [_ H]%sapp_eq_nil. by apply sapp_eq_nil in H as [_ ?].
Qed.

Lemma strip_suffix_unfold (suf s : string) :
  strip_suffix suf s
  = if bool_decide (s = suf) then Some ""
    else match s with
         | EmptyString => None
         | String c r => String c <$> strip_suffix suf r
         end.
Proof. by destruct s. Qed.

Lemma strip_suffix_short (suf s : string) :
  (String.length s < String.length suf)%nat -> strip_suffix suf s = None.
Proof.
  induction s as [|c s IH]; intros Hlen; rewrite strip_suffix_unfold;
    (rewrite bool_decide_eq_false_2; [|intros <-; simpl in Hlen; lia]).
  - done.
  - rewrite IH; [done|]. simpl in Hlen. lia.
Qed.

Lemma strip_suffix_app (suf x : string) :
  strip_suffix suf (x +:+ suf) = Some x.
Proof.
  induction x as [|c x IH]; rewrite strip_suffix_unfold.
  - by rewrite sapp_nil_l, bool_decide_eq_true_2.
  - rewrite sapp_cons, IH.
    rewrite bool_decide_eq_false_2; [done|].
    intros H. apply (f_equal String.length) in H. simpl in H.
    rewrite sapp_length in H. lia.
Qed.

Lemma strip_suffix_other (suf x t : string) :
  String.length t = String.length suf -> t <> suf ->
  strip_suffix suf (x +:+ t) = None.
Proof.
  intros Hlen Hne. induction x as [|c x IH]; rewrite strip_suffix_unfold.
  - rewrite sapp_nil_l, bool_decide_eq_false_2 by done.
    destruct t as [|c t]; [done|].
    rewrite strip_suffix_short; [done|]. simpl in Hlen. lia.
  - rewrite sapp_cons, IH.
    rewrite bool_decide_eq_false_2; [done|].
    intros H. apply (f_equal String.length) in H. simpl in H.
    rewrite sapp_length in H. lia.
Qed.

Lemma chop_app (x suf : string) : chop (x +:+ suf) suf = x.
Proof. unfold chop. by rewrite strip_suffix_app. Qed.

Lemma chop_other (x t suf : string) :
  String.length t = String.length suf -> t <> suf ->
  chop (x +:+ t) suf = x +:+ t.
Proof. intros. unfold chop. by rewrite strip_suffix_other. Qed.

Lemma chop_lit (x l suf p : string) :
  l = p +:+ suf -> chop (x +:+ l) suf = x +:+ p.
Proof. intros ->. by rewrite <- sapp_assoc, chop_app. Qed.

Lemma chop_lit_other (x l suf p t : string) :
  l = p +:+ t -> String.length t = String.length suf -> t <> suf ->
  chop (x +:+ l) suf = x +:+ l.
Proof.
  intros -> Hlen Hne. rewrite <- sapp_assoc. by apply chop_other.
Qed.

(** The report name of a filtered read file. *)
Lemma fastqc_stem_filtered (a x : string) :
  slash_free x = true ->
  fastqc_stem (a +:+ "/filtered/" +:+ x +:+ ".trimmed.filtered.fastq.gz")
  = x +:+ ".trimmed.filtered".
Proof.
  intros Hx. unfold fastqc_stem.
  change ("/filtered/" +:+ x +:+ ".trimmed.filtered.fastq.gz")
    with ("/filtered" +:+ "/" +:+ x +:+ ".trimmed.filtered.fastq.gz").
  rewrite <- (sapp_assoc a), basename_in_dir
    by (by rewrite slash_free_app, Hx).
  cbn [fold_left].
  rewrite (chop_lit x _ ".gz" ".trimmed.filtered.fastq") by done.
  rewrite (chop_lit_other x _ ".bz2" ".trimmed.filtered.f" "astq") by done.
  rewrite (chop_lit_other x _ ".txt" ".trimmed.filtered.f" "astq") by done.
  rewrite (chop_lit x _ ".fastq" ".trimmed.filtered") by done.
  rewrite (chop_lit_other x _ ".fq" ".trimmed.filte" "red") by done.
  rewrite (chop_lit_other x _ ".csfastq" ".trimmed." "filtered") by done.
  rewrite (chop_lit_other x _ ".sam" ".trimmed.filt" "ered") by done.
  by rewrite (chop_lit_other x _ ".bam" ".trimmed.filt" "ered").
Qed.

Lemma fastqc_out_dir (C : config) (sample : string) :
  slash_free sample = true ->
  dirname (html (qc_per_sample_fastqc_output C sample))
  = qc_dir C +:+ sample +:+ "/fastqc_per_sample".
Proof.
  intros Hs. simpl.
  change ("/fastqc_per_sample/" +:+ sample +:+ ".R1.trimmed.filtered_fastqc.html")
    with ("/fastqc_per_sample"
          +:+ String "/" (sample +:+ ".R1.trimmed.filtered_fastqc.html")).
  rewrite <- (sapp_assoc (qc_dir C) sample), dirname_in_dir; try done.
  - by rewrite sapp_assoc.
  - by rewrite slash_free_app, Hs.
Qed.

Lemma fastqc_report_names (C : config) (sample mate : string) :
  slash_free sample = true -> slash_free mate = true ->
  fastqc_stem (qc_dir C +:+ sample +:+ "/filtered/" +:+ sample +:+ mate
               +:+ ".trimmed.filtered.fastq.gz")
  = sample +:+ mate +:+ ".trimmed.filtered".
Proof.
  intros Hs Hm.
  rewrite <- (sapp_assoc (qc_dir C) sample), <- (sapp_assoc sample mate).
  rewrite fastqc_stem_filtered by (by rewrite slash_free_app, Hs, Hm).
  by rewrite sapp_assoc.
Qed.

(** C8, as the code has it.  For a sample name without a slash, the
    outputs qc_per_sample_fastqc declares are two files: the HTML report
    fastqc writes for the forward (R1) input and the ZIP archive it
    writes for the reverse (R2) input.  The script passes both inputs to
    fastqc; the archive of the forward input and the HTML report of the
    reverse input are not declared. *)
Theorem fastqc_declared_outputs (C : config) (sample : string) :
  slash_free sample = true ->
  let input := qc_per_sample_fastqc_input C sample in
  let out_dir := dirname (html (qc_per_sample_fastqc_output C sample)) in
  job_output C (QcPerSampleFastqc sample)
    = [fastqc_html out_dir (forward input); fastqc_zip out_dir (reverse input)]
  /\ qc_per_sample_fastqc_script C sample
      = [Activate (envs_qc C);
         Fastqc qc_per_sample_fastqc_threads out_dir (forward input)
           (reverse input) (qc_per_sample_fastqc_log C sample)]
  /\ (fastqc_zip out_dir (forward input)
        ∉ job_output C (QcPerSampleFastqc sample))
  /\ (fastqc_html out_dir (reverse input)
        ∉ job_output C (QcPerSampleFastqc sample)).
Proof.
  intros Hs input out_dir. subst input out_dir.
  unfold qc_per_sample_fastqc_script.
  rewrite !fastqc_out_dir by done. unfold fastqc_html, fastqc_zip.
  cbn [job_output qc_per_sample_fastqc_input qc_per_sample_fastqc_output
       forward reverse html zip].
  change (sample +:+ ".R1.trimmed.filtered.fastq.gz")
    with (sample +:+ ".R1" +:+ ".trimmed.filtered.fastq.gz").
  change (sample +:+ ".R2.trimmed.filtered.fastq.gz")
    with (sample +:+ ".R2" +:+ ".trimmed.filtered.fastq.gz").
  rewrite !fastqc_report_names by done.
  rewrite !sapp_assoc.
  split; [reflexivity|]. split; [reflexivity|].
  rewrite !elem_of_cons, !elem_of_nil. split; intros [H|[H|[]]]; revert H.
  - neq_by "zip" "tml".
  - neq_by ".R1.trimmed.filtered_fastqc.zip" ".R2.trimmed.filtered_fastqc.zip".
  - neq_by ".R2.trimmed.filtered_fastqc.html" ".R1.trimmed.filtered_fastqc.html".
  - neq_by "tml" "zip".
Qed.

Lemma fastqc_declared_outputs_witness :
  job_output (Scenario.cfg PyNone) (QcPerSampleFastqc "S1")
  = [fastqc_html "data/qc/S1/fastqc_per_sample"
       "data/qc/S1/filtered/S1.R1.trimmed.filtered.fastq.gz";
     fastqc_zip "data/qc/S1/fastqc_per_sample"
       "data/qc/S1/filtered/S1.R2.trimmed.filtered.fastq.gz"].
Proof.
  exact (proj1 (fastqc_declared_outputs (Scenario.cfg PyNone) "S1" eq_refl)).
Defined.

(** C8, as the claim has it: the declared outputs would be the two
    reports of the reverse input.  They are not: the declared HTML file
    is the report of the forward input. *)
Lemma fastqc_outputs_not_reverse_pair :
  let C := Scenario.cfg PyNone in
  let input := qc_per_sample_fastqc_input C "S1" in
  let out_dir := dirname (html (qc_per_sample_fastqc_output C "S1")) in
  html (qc_per_sample_fastqc_output C "S1")
    = "data/qc/S1/fastqc_per_sample/S1.R1.trimmed.filtered_fastqc.html"
  /\ fastqc_html out_dir (reverse input)
      = "data/qc/S1/fastqc_per_sample/S1.R2.trimmed.filtered_fastqc.html"
  /\ job_output C (QcPerSampleFastqc "S1")
      <> [fastqc_html out_dir (reverse input);
          fastqc_zip out_dir (reverse input)].
Proof. vm_compute. repeat split. discriminate. Qed.

End report_names.

(** ** The link branch of qc_filter *)

Section link_branch.
Import Path Fs Shell Rules.

Variables (C : config) (T : tools) (cwd sample : string) (fs : FS).

Let input := qc_filter_input C sample.
Let output := qc_filter_output C sample.
Let kif := key cwd (forward input).
Let kir := key cwd (reverse input).
Let kof := key cwd (forward output).
Let kor := key cwd (reverse output).
Let klb := key cwd (qc_filter_log_bowtie C sample).
Let klo := key cwd (qc_filter_log_other C sample).
Let message := File (Text (not_filtered +:+ String "010" "")).

Lemma link_keys_distinct :
  kof <> kor /\ kof <> klb /\ kof <> klo /\ kor <> klb /\ kor <> klo
  /\ kif <> kof /\ kif <> kor /\ kif <> klb /\ kif <> klo
  /\ kir <> kof /\ kir <> kor /\ kir <> klb /\ kir <> klo.
Proof.
  unfold kif, kir, kof, kor, klb, klo, input, output. simpl.
  unfold qc_filter_log_bowtie, qc_filter_log_other.
  repeat match goal with |- _ /\ _ => split end.
  - key_neq_by "R1.trimmed.filtered.fastq.gz" "R2.trimmed.filtered.fastq.gz".
  - key_neq_by ".gz" "log".
  - key_neq_by ".gz" "log".
  - key_neq_by ".gz" "log".
  - key_neq_by ".gz" "log".
  - key_neq_by ".R1.fastq.gz" "red.fastq.gz".
  - key_neq_by ".R1.fastq.gz" "red.fastq.gz".
  - key_neq_by ".gz" "log".
  - key_neq_by ".gz" "log".
  - key_neq_by ".R2.fastq.gz" "red.fastq.gz".
  - key_neq_by ".R2.fastq.gz" "red.fastq.gz".
  - key_neq_by ".gz" "log".
  - key_neq_by ".gz" "log".
Qed.

Hypothesis Hof : fs !! kof = None.
Hypothesis Hor : fs !! kor = None.
Hypothesis Hlb : plain fs klb.
Hypothesis Hlo : plain fs klo.

(** The states of the link script when the output paths are free. *)
Lemma link_script_run :
  let s1 := <[kof := Link (abspath cwd (forward input))]> fs in
  let s2 := <[kor := Link (abspath cwd (reverse input))]> s1 in
  let s3 := <[klb := message]> s2 in
  let s4 := <[klo := message]> s3 in
  shell T cwd (qc_filter_link_script C cwd sample) fs
  = ([s1; s2; s3; s4], Success).
Proof.
  destruct link_keys_distinct as (? & ? & ? & ? & ? & _).
  intros s1 s2 s3 s4. unfold qc_filter_link_script.
  fold input output.
  apply (shell_step T cwd _ _ fs [s1] s1 [s2; s3; s4] Success); [|done|].
  { unfold exec. by rewrite ln_s_absent. }
  apply (shell_step T cwd _ _ s1 [s2] s2 [s3; s4] Success); [|done|].
  { unfold exec. rewrite ln_s_absent; [done|].
    fold kor. unfold s1. by rewrite lookup_insert_ne. }
  apply (shell_step T cwd _ _ s2 [s3] s3 [s4] Success); [|done|].
  { unfold exec. rewrite put_plain; [done|]. fold klb.
    do 2 (apply plain_insert_ne; [done|]). done. }
  apply (shell_step T cwd _ _ s3 [s4] s4 [] Success); [|done|done].
  unfold exec. rewrite put_plain; [done|]. fold klo.
  apply plain_insert; [done|].
  do 2 (apply plain_insert_ne; [done|]). done.
Qed.

Hypothesis Hcwd : isabs cwd = true.
Hypothesis Hif : plain fs kif.
Hypothesis Hir : plain fs kir.

(** Reading a link the script made reads the trimmed file. *)
Lemma link_script_read :
  let fs' := final fs (shell T cwd (qc_filter_link_script C cwd sample) fs) in
  read cwd fs' (forward output) = read cwd fs (forward input)
  /\ read cwd fs' (reverse output) = read cwd fs (reverse input)
  /\ read cwd fs' (forward input) = read cwd fs (forward input)
  /\ read cwd fs' (reverse input) = read cwd fs (reverse input).
Proof.
  destruct link_keys_distinct
    as (? & ? & ? & ? & ? & ? & ? & ? & ? & ? & ? & ? & ?).
  rewrite link_script_run. unfold final. cbn [fst List.last].
  set (fs' := <[klo:=message]> _).
  assert (forall k, k <> kof -> k <> kor -> k <> klb -> k <> klo ->
            fs' !! k = fs !! k) as Hsame.
  { intros k ? ? ? ?. unfold fs'. by rewrite !lookup_insert_ne. }
  assert (fs' !! kof = Some (Link (abspath cwd (forward input)))) as Hlf.
  { unfold fs'. rewrite !lookup_insert_ne by done. apply lookup_insert_eq. }
  assert (fs' !! kor = Some (Link (abspath cwd (reverse input)))) as Hlr.
  { unfold fs'. rewrite !lookup_insert_ne by done. apply lookup_insert_eq. }
  assert (plain fs' kif) as Hif'.
  { unfold plain. by rewrite Hsame. }
  assert (plain fs' kir) as Hir'.
  { unfold plain. by rewrite Hsame. }
  assert (forall p k, fs' !! key cwd p = Some (Link (abspath cwd k)) ->
            plain fs' (key cwd k) ->
            read cwd fs' p = read cwd fs' k) as Hlink.
  { intros p k Hp Hk.
    assert (link_dest (key cwd p) (abspath cwd k) = key cwd k) as Hdest.
    { unfold link_dest. rewrite (key_of_abs _ cwd) by by apply abspath_abs.
      by apply key_abspath. }
    unfold read at 1. rewrite (locate_link _ _ _ _ Hp); rewrite Hdest; [|done].
    by rewrite read_plain. }
  repeat split.
  - rewrite (Hlink _ _ Hlf Hif'), !read_plain by done. fold kif.
    by rewrite Hsame.
  - rewrite (Hlink _ _ Hlr Hir'), !read_plain by done. fold kir.
    by rewrite Hsame.
  - rewrite !read_plain by done. fold kif. by rewrite Hsame.
  - rewrite !read_plain by done. fold kir. by rewrite Hsame.
Qed.




End link_branch.

Section pass_through.
Import Path Fs Shell Rules.

(** C3.  A sample whose configured filter database is [None], started
    in a state without its filter-stage outputs: the task ends well, each
    output path is a symbolic link to the absolute path of the trimmed
    file of the same direction, and what is read at an output path is
    what is read at the trimmed path, which the task leaves as it was. *)
Theorem pass_through_identity (C : config) (T : tools)
  (cwd sample temp_dir : string) (fs : FS) :
  qc_filter_filter_db C sample = Some PyNone ->
  isabs cwd = true ->
  link_ready C cwd sample fs ->
  plain fs (key cwd (forward (qc_filter_input C sample))) ->
  plain fs (key cwd (reverse (qc_filter_input C sample))) ->
  let input := qc_filter_input C sample in
  let output := qc_filter_output C sample in
  let r := qc_filter_run C T cwd sample temp_dir fs in
  r.2 = Success
  /\ final fs r !! key cwd (forward output)
     = Some (Link (abspath cwd (forward input)))
  /\ final fs r !! key cwd (reverse output)
     = Some (Link (abspath cwd (reverse input)))
  /\ read cwd (final fs r) (forward output) = read cwd fs (forward input)
  /\ read cwd (final fs r) (reverse output) = read cwd fs (reverse input)
  /\ read cwd (final fs r) (forward input) = read cwd fs (forward input)
  /\ read cwd (final fs r) (reverse input) = read cwd fs (reverse input).
Proof.
  intros Hdb Hcwd (Hof & Hor & Hlb & Hlo) Hif Hir input output r.
  subst r. unfold qc_filter_run. rewrite Hdb.
  pose proof (link_script_read C T cwd sample fs Hof Hor Hlb Hlo Hcwd Hif Hir)
    as Hread.
  pose proof (link_keys_distinct C cwd sample) as (? & ? & ? & ? & ? & _).
  rewrite (link_script_run C T cwd sample fs Hof Hor Hlb Hlo) in *.
  split; [done|]. unfold final. cbn [fst List.last].
  split; [|split; [|exact Hread]].
  - rewrite !lookup_insert_ne by done. apply lookup_insert_eq.
  - rewrite !lookup_insert_ne by done. apply lookup_insert_eq.
Qed.


Lemma scenario_link_ready :
  link_ready (Scenario.cfg PyNone) Scenario.cwd "S1" Scenario.fs_trimmed.
Proof.
  unfold link_ready. split; [|split; [|split]]; vm_compute; done.
Qed.

Lemma pass_through_identity_witness :
  read Scenario.cwd
    (final Scenario.fs_trimmed
       (qc_filter_run (Scenario.cfg PyNone) Scenario.working Scenario.cwd
          "S1" "/tmp/tmp2" Scenario.fs_trimmed))
    "data/qc/S1/filtered/S1.R1.trimmed.filtered.fastq.gz"
  = Some (Gz (Fastq [Scenario.entry "a/1"])).
Proof.
  destruct (pass_through_identity (Scenario.cfg PyNone) Scenario.working
              Scenario.cwd "S1" "/tmp/tmp2" Scenario.fs_trimmed)
    as (_ & _ & _ & H & _).
  - vm_compute. reflexivity.
  - reflexivity.
  - exact scenario_link_ready.
  - vm_compute. exact I.
  - vm_compute. exact I.
  - etrans; [exact H|]. vm_compute. reflexivity.
Defined.


End pass_through.

(** ** The alignment branch of qc_filter *)

Section align_branch.
Import Path Fs Shell Rules.

Variables (C : config) (T : tools) (cwd sample db tmp : string) (fs : FS).

Let input := qc_filter_input C sample.
Let output := qc_filter_output C sample.
Let ktmp := key cwd tmp.
Let kof := key cwd (forward output).
Let kor := key cwd (reverse output).
Let klb := key cwd (qc_filter_log_bowtie C sample).
Let klo := key cwd (qc_filter_log_other C sample).
Let r1 := tmp +:+ "/" +:+ sample +:+ ".R1.trimmed.filtered.fastq".
Let r2 := tmp +:+ "/" +:+ sample +:+ ".R2.trimmed.filtered.fastq".
Let kt1 := ktmp ++ [sample +:+ ".R1.trimmed.filtered.fastq"].
Let kt2 := ktmp ++ [sample +:+ ".R2.trimmed.filtered.fastq"].
Let kg1 := ktmp ++ [sample +:+ ".R1.trimmed.filtered.fastq.gz"].
Let kg2 := ktmp ++ [sample +:+ ".R2.trimmed.filtered.fastq.gz"].

Hypothesis Hready : align_ready C cwd sample tmp fs.

Lemma align_scratch_keys :
  key cwd r1 = kt1 /\ key cwd r2 = kt2
  /\ key cwd (r1 +:+ ".gz") = kg1 /\ key cwd (r2 +:+ ".gz") = kg2.
Proof.
  destruct Hready as (Hs & [Htmp _] & _).
  assert (forall e, ending e = true -> clean (sample +:+ e) = true) as Hclean.
  { intros e He. by apply clean_ending. }
  unfold r1, r2, kt1, kt2, kg1, kg2, ktmp. repeat split.
  - by apply key_in_dir, Hclean.
  - by apply key_in_dir, Hclean.
  - rewrite !sapp_assoc.
    by apply (key_in_dir cwd tmp (sample +:+ ".R1.trimmed.filtered.fastq.gz")),
             Hclean.
  - rewrite !sapp_assoc.
    by apply (key_in_dir cwd tmp (sample +:+ ".R2.trimmed.filtered.fastq.gz")),
             Hclean.
Qed.

Lemma outside_ne (k k' : list string) :
  ~ ktmp `prefix_of` k -> ktmp `prefix_of` k' -> k' <> k.
Proof. by intros Hk Hk' ->. Qed.

Lemma align_keys_distinct :
  ktmp <> kt1 /\
  ktmp <> kt2 /\
  ktmp <> kg1 /\
  ktmp <> kg2 /\
  ktmp <> kof /\
  ktmp <> kor /\
  ktmp <> klb /\
  ktmp <> klo /\
  kt1 <> kt2 /\
  kt1 <> kg1 /\
  kt1 <> kg2 /\
  kt1 <> kof /\
  kt1 <> kor /\
  kt1 <> klb /\
  kt1 <> klo /\
  kt2 <> kg1 /\
  kt2 <> kg2 /\
  kt2 <> kof /\
  kt2 <> kor /\
  kt2 <> klb /\
  kt2 <> klo /\
  kg1 <> kg2 /\
  kg1 <> kof /\
  kg1 <> kor /\
  kg1 <> klb /\
  kg1 <> klo /\
  kg2 <> kof /\
  kg2 <> kor /\
  kg2 <> klb /\
  kg2 <> klo /\
  kof <> kor /\
  kof <> klb /\
  kof <> klo /\
  kor <> klb /\
  kor <> klo.
Proof.
  destruct Hready as (Hs & _ & [_ Hof] & [_ Hor] & [_ Hlb] & [_ Hlo]).
  fold kof kor klb klo ktmp in Hof, Hor, Hlb, Hlo.
  assert (ktmp `prefix_of` ktmp) as Hp0 by done.
  assert (ktmp `prefix_of` kt1) as Hp1 by apply prefix_snoc.
  assert (ktmp `prefix_of` kt2) as Hp2 by apply prefix_snoc.
  assert (ktmp `prefix_of` kg1) as Hp3 by apply prefix_snoc.
  assert (ktmp `prefix_of` kg2) as Hp4 by apply prefix_snoc.
  repeat match goal with |- _ /\ _ => split end;
    try (by apply not_eq_sym, snoc_ne);
    try (by eapply outside_ne);
    try (apply snoc_inj_ne;
         first [ neq_by "R1.trimmed.filtered.fastq" "R2.trimmed.filtered.fastq"
               | neq_by "R1.trimmed.filtered.fastq.gz"
                        "R2.trimmed.filtered.fastq.gz"
               | neq_by "fastq" "tq.gz" ]).
  - unfold kof, kor, output. simpl.
    key_neq_by "R1.trimmed.filtered.fastq.gz" "R2.trimmed.filtered.fastq.gz".
  - unfold kof, klb, output, qc_filter_log_bowtie. simpl. key_neq_by ".gz" "log".
  - unfold kof, klo, output, qc_filter_log_other. simpl. key_neq_by ".gz" "log".
  - unfold kor, klb, output, qc_filter_log_bowtie. simpl. key_neq_by ".gz" "log".
  - unfold kor, klo, output, qc_filter_log_other. simpl. key_neq_by ".gz" "log".
Qed.

Lemma align_plain_start :
  let fs0 := <[ktmp := Dir]> fs in
  plain fs0 klb /\ plain fs0 klo /\ plain fs0 kof /\ plain fs0 kor
  /\ plain fs0 kt1 /\ plain fs0 kt2 /\ plain fs0 kg1 /\ plain fs0 kg2.
Proof.
  pose proof align_keys_distinct as Hne. destruct_and!.
  destruct Hready as (_ & [_ Hv] & [Hof _] & [Hor _] & [Hlb _] & [Hlo _]).
  fold kof kor klb klo ktmp in Hof, Hor, Hlb, Hlo, Hv.
  repeat split; (apply plain_insert_ne; [ne|]); try done;
    eapply vacant_plain; try exact Hv; apply prefix_snoc.
Qed.

(** The run of the alignment branch, by the outcome of the activation
    and of the aligner. *)
Lemma align_run :
  let fs0 := <[ktmp := Dir]> fs in
  let fsP := <[kt2 := Partial]> (<[kt1 := Partial]>
               (<[klo := Partial]> (<[klb := Partial]> fs0))) in
  with_tempdir cwd tmp
    (shell T cwd (qc_filter_align_script C sample db tmp)) fs
  = if env_ok T (envs_qc C) then
      match read cwd fsP (forward input), read cwd fsP (reverse input) with
      | Some i1, Some i2 =>
          match bowtie2 T qc_filter_threads db i1 i2 with
          | Some (sam, err) =>
              let kept := apply_filters T
                qc_filter_stages sam in
              let pairs := Sam.bamtofastq kept in
              let fsF := <[kt2 := File (Fastq (map snd pairs))]>
                           (<[kt1 := File (Fastq (map fst pairs))]>
                              (<[klo := File (other_log T kept)]>
                                 (<[klb := File err]> fsP))) in
              let fsA := <[kg1 := Partial]> fsF in
              let fsB := <[kg1 := File (Gz (Fastq (map fst pairs)))]> fsA in
              let fsC := <[kg2 := Partial]> fsB in
              let fsD := <[kg2 := File (Gz (Fastq (map snd pairs)))]> fsC in
              let fsE := <[kof := File (Gz (Fastq (map fst pairs)))]> fsD in
              let fsG := <[kor := File (Gz (Fastq (map snd pairs)))]> fsE in
              ([fs0; fsP; fsF; fsA; fsB; fsC; fsD; fsE; fsG; rmtree ktmp fsG],
               Success)
          | None => ([fs0; fsP; rmtree ktmp fsP], CalledProcessError)
          end
      | _, _ => ([fs0; fsP; rmtree ktmp fsP], CalledProcessError)
      end
    else ([fs0; rmtree ktmp fs0], CalledProcessError).
Proof.
  intros fs0 fsP.
  pose proof align_keys_distinct as Hne. destruct_and!.
  destruct align_scratch_keys as (Hk1 & Hk2 & Hk3 & Hk4).
  destruct align_plain_start as (Plb & Plo & Pof & Por & P1 & P2 & P3 & P4).
  fold fs0 in Plb, Plo, Pof, Por, P1, P2, P3, P4.
  destruct Hready as (_ & [_ Hv] & _). fold ktmp in Hv.
  unfold qc_filter_align_script. fold input output r1 r2.
  assert (exec T cwd
            (Bowtie2Pipe qc_filter_threads db (forward input) (reverse input)
               (qc_filter_log_bowtie C sample)
               qc_filter_stages
               (qc_filter_log_other C sample) r1 r2) fs0
          = match read cwd fsP (forward input),
                  read cwd fsP (reverse input) with
            | Some i1, Some i2 =>
                match bowtie2 T qc_filter_threads db i1 i2 with
                | Some (sam, err) =>
                    let kept := apply_filters T
                      qc_filter_stages sam in
                    let pairs := Sam.bamtofastq kept in
                    ([fsP;
                      <[kt2 := File (Fastq (map snd pairs))]>
                        (<[kt1 := File (Fastq (map fst pairs))]>
                           (<[klo := File (other_log T kept)]>
                              (<[klb := File err]> fsP)))], Success)
                | None => ([fsP], CalledProcessError)
                end
            | _, _ => ([fsP], CalledProcessError)
            end) as Hpipe.
  { unfold exec. rewrite produce_plain.
    - cbn [mark fold_left]. fold klb klo. rewrite Hk1, Hk2. fold fsP.
      destruct (read cwd fsP (forward input)) as [i1|]; [|done].
      destruct (read cwd fsP (reverse input)) as [i2|]; [|done].
      destruct (bowtie2 T qc_filter_threads db i1 i2) as [[sam err]|]; [|done].
      cbn [fill fold_left fst snd]. fold klb klo. by rewrite Hk1, Hk2.
    - repeat (apply Forall_cons; split); try apply Forall_nil;
        by rewrite ?Hk1, ?Hk2.
    - intros outs.
      destruct (read cwd _ (forward input)) as [i1|]; [|done].
      destruct (read cwd _ (reverse input)) as [i2|]; [|done].
      destruct (bowtie2 T qc_filter_threads db i1 i2) as [[sam err]|]; [|done].
      intros [= <-].
      repeat (apply Forall_cons; split); try apply Forall_nil; cbn [fst];
        by rewrite ?Hk1, ?Hk2. }
  destruct (env_ok T (envs_qc C)) eqn:Henv.
  2:{ rewrite (with_tempdir_run _ _ _ _ [] CalledProcessError); [done|done|].
      apply shell_stop. by rewrite exec_activate, Henv. }
  assert (forall rest tr st,
            shell T cwd rest fs0 = (tr, st) ->
            shell T cwd (Activate (envs_qc C) :: rest) fs0 = (tr, st))
    as Hact.
  { intros rest tr st Hrest.
    apply (shell_step _ _ _ _ _ [] fs0 tr st);
      [by rewrite exec_activate, Henv|done|done]. }
  destruct (read cwd fsP (forward input)) as [i1|] eqn:Hi1.
  2:{ rewrite (with_tempdir_run _ _ _ _ [fsP] CalledProcessError);
        [done|done|].
      by apply Hact, shell_stop. }
  destruct (read cwd fsP (reverse input)) as [i2|] eqn:Hi2.
  2:{ rewrite (with_tempdir_run _ _ _ _ [fsP] CalledProcessError);
        [done|done|].
      by apply Hact, shell_stop. }
  destruct (bowtie2 T qc_filter_threads db i1 i2) as [[sam err]|] eqn:Hbt.
  2:{ rewrite (with_tempdir_run _ _ _ _ [fsP] CalledProcessError);
        [done|done|].
      by apply Hact, shell_stop. }
  cbv zeta.
  set (kept := apply_filters T _ sam). set (pairs := Sam.bamtofastq kept).
  set (fsF := <[kt2 := File (Fastq (map snd pairs))]> _).
  set (fsA := <[kg1 := Partial]> fsF).
  set (fsB := <[kg1 := File (Gz (Fastq (map fst pairs)))]> fsA).
  set (fsC := <[kg2 := Partial]> fsB).
  set (fsD := <[kg2 := File (Gz (Fastq (map snd pairs)))]> fsC).
  set (fsE := <[kof := File (Gz (Fastq (map fst pairs)))]> fsD).
  set (fsG := <[kor := File (Gz (Fastq (map snd pairs)))]> fsE).
  rewrite (with_tempdir_run _ _ _ _
             [fsP; fsF; fsA; fsB; fsC; fsD; fsE; fsG] Success); [done|done|].
  apply Hact.
  apply (shell_step _ _ _ _ _ [fsP; fsF] fsF
           [fsA; fsB; fsC; fsD; fsE; fsG] Success); [exact Hpipe|done|].
  assert (plain fsF kg1 /\ plain fsF kg2 /\ plain fsF kof /\ plain fsF kor)
    as (Q3 & Q4 & Qof & Qor).
  { repeat split; by repeat (apply plain_insert; [done|]). }
  apply (shell_step _ _ _ _ _ [fsA; fsB] fsB
           [fsC; fsD; fsE; fsG] Success); [|done|].
  { unfold fsB, fsA. rewrite <- Hk3. apply exec_pigz; rewrite Hk3; [done|].
    apply read_file. rewrite Hk1. unfold fsF. by look. }
  apply (shell_step _ _ _ _ _ [fsC; fsD] fsD [fsE; fsG] Success); [|done|].
  { unfold fsD, fsC. rewrite <- Hk4. apply exec_pigz; rewrite Hk4.
    - by repeat (apply plain_insert; [done|]).
    - apply read_file. rewrite Hk2. unfold fsB, fsA, fsF. by look. }
  apply (shell_step _ _ _ _ _ [fsE] fsE [fsG] Success); [|done|].
  { apply exec_scp.
    - apply read_file. rewrite Hk3. unfold fsD, fsC, fsB. by look.
    - by repeat (apply plain_insert; [done|]). }
  apply (shell_step _ _ _ _ _ [fsG] fsG [] Success); [|done|done].
  apply exec_scp.
  - apply read_file. rewrite Hk4. unfold fsE, fsD. by look.
  - by repeat (apply plain_insert; [done|]).
Qed.


Lemma align_outside :
  ~ ktmp `prefix_of` kof /\ ~ ktmp `prefix_of` kor
  /\ ~ ktmp `prefix_of` klb /\ ~ ktmp `prefix_of` klo.
Proof. by destruct Hready as (_ & _ & [_ ?] & [_ ?] & [_ ?] & [_ ?]). Qed.

(** What is left when the scratch directory is removed. *)
Lemma align_removed_success (v1 v2 v3 v4 v5 v6 v7 v8 v9 v10 : node) :
  let fs0 := <[ktmp := Dir]> fs in
  let fsP := <[kt2 := Partial]> (<[kt1 := Partial]>
               (<[klo := Partial]> (<[klb := Partial]> fs0))) in
  rmtree ktmp
    (<[kor := v10]> (<[kof := v9]> (<[kg2 := v8]> (<[kg2 := v7]>
       (<[kg1 := v6]> (<[kg1 := v5]> (<[kt2 := v4]> (<[kt1 := v3]>
          (<[klo := v2]> (<[klb := v1]> fsP))))))))))
  = <[kor := v10]> (<[kof := v9]> (<[klo := v2]> (<[klb := v1]>
      (<[klo := Partial]> (<[klb := Partial]> fs))))).
Proof.
  destruct align_outside as (Oof & Oor & Olb & Olo).
  destruct Hready as (_ & [_ Hv] & _). fold ktmp in Hv.
  intros fs0 fsP. unfold fsP, fs0.
  repeat first [ rewrite rmtree_insert_under by (first [done | apply prefix_snoc])
               | rewrite rmtree_insert_outside by assumption ].
  by rewrite rmtree_vacant.
Qed.

Lemma align_removed_failure :
  let fs0 := <[ktmp := Dir]> fs in
  let fsP := <[kt2 := Partial]> (<[kt1 := Partial]>
               (<[klo := Partial]> (<[klb := Partial]> fs0))) in
  rmtree ktmp fs0 = fs
  /\ rmtree ktmp fsP = <[klo := Partial]> (<[klb := Partial]> fs).
Proof.
  destruct align_outside as (Oof & Oor & Olb & Olo).
  destruct Hready as (_ & [_ Hv] & _). fold ktmp in Hv.
  intros fs0 fsP. unfold fsP, fs0. split;
    repeat first [ rewrite rmtree_insert_under by (first [done | apply prefix_snoc])
                 | rewrite rmtree_insert_outside by assumption ];
    by rewrite rmtree_vacant.
Qed.

(** The aligner reads the trimmed files as they were before the run. *)
Lemma align_input_read (i1 i2 : content) :
  let fs0 := <[ktmp := Dir]> fs in
  let fsP := <[kt2 := Partial]> (<[kt1 := Partial]>
               (<[klo := Partial]> (<[klb := Partial]> fs0))) in
  fs !! key cwd (forward input) = Some (File i1) ->
  fs !! key cwd (reverse input) = Some (File i2) ->
  read cwd fsP (forward input) = Some i1
  /\ read cwd fsP (reverse input) = Some i2.
Proof.
  destruct Hready as (_ & [_ Hv] & _). fold ktmp in Hv.
  intros fs0 fsP H1 H2.
  assert (forall k n, fs !! k = Some n -> k <> ktmp /\ k <> kt1 /\ k <> kt2)
    as Hin.
  { intros k n Hk. repeat split; intros ->.
    - by rewrite (vacant_lookup fs ktmp ktmp Hv) in Hk.
    - by rewrite (vacant_lookup fs ktmp kt1 Hv) in Hk by apply prefix_snoc.
    - by rewrite (vacant_lookup fs ktmp kt2 Hv) in Hk by apply prefix_snoc. }
  destruct (Hin _ _ H1) as (? & ? & ?). destruct (Hin _ _ H2) as (? & ? & ?).
  assert (key cwd (forward input) <> klb /\ key cwd (forward input) <> klo
          /\ key cwd (reverse input) <> klb /\ key cwd (reverse input) <> klo)
    as (? & ? & ? & ?).
  { unfold klb, klo, input, qc_filter_log_bowtie, qc_filter_log_other. simpl.
    repeat match goal with |- _ /\ _ => split end; key_neq_by ".gz" "log". }
  split; apply read_file; unfold fsP, fs0; by look.
Qed.




End align_branch.

Section filtered_pairs.
Import Path Fs Shell Rules.

(** The records that reach the FASTQ extraction are those of the
    aligner's stream that [samtools view -f 12 -F 256] keeps. *)
Lemma kept_records (T : tools) (sam : list Sam.record) (a : Sam.record) :
  In a (apply_filters T qc_filter_stages sam)
  <-> In a sam /\ Sam.view_keep 12 256 a = true.
Proof.
  unfold apply_filters, qc_filter_stages. cbn [fold_left apply_filter].
  rewrite sort_by_name_In. unfold Sam.view_flags. by rewrite filter_In.
Qed.

(** The run of the alignment branch when the activation and the
    aligner succeed. *)
Lemma align_outputs (C : config) (T : tools) (cwd sample temp_dir : string)
  (fs : FS) (db : pyval) (i1 i2 : content) (sam : list Sam.record)
  (err : content) :
  qc_filter_filter_db C sample = Some db -> db <> PyNone ->
  align_ready C cwd sample temp_dir fs ->
  fs !! key cwd (forward (qc_filter_input C sample)) = Some (File i1) ->
  fs !! key cwd (reverse (qc_filter_input C sample)) = Some (File i2) ->
  env_ok T (envs_qc C) = true ->
  bowtie2 T qc_filter_threads (py_str db) i1 i2 = Some (sam, err) ->
  let kept := apply_filters T qc_filter_stages sam in
  let pairs := Sam.bamtofastq kept in
  let r := qc_filter_run C T cwd sample temp_dir fs in
  r.2 = Success
  /\ final fs r
     = <[key cwd (reverse (qc_filter_output C sample))
           := File (Gz (Fastq (map snd pairs)))]>
         (<[key cwd (forward (qc_filter_output C sample))
              := File (Gz (Fastq (map fst pairs)))]>
            (<[key cwd (qc_filter_log_other C sample)
                 := File (other_log T kept)]>
               (<[key cwd (qc_filter_log_bowtie C sample) := File err]>
                  (<[key cwd (qc_filter_log_other C sample) := Partial]>
                     (<[key cwd (qc_filter_log_bowtie C sample) := Partial]>
                        fs))))).
Proof.
  intros Hdb Hne Hready Hi1 Hi2 Henv Hbt kept pairs r. subst r.
  assert (qc_filter_run C T cwd sample temp_dir fs
          = with_tempdir cwd temp_dir
              (shell T cwd
                 (qc_filter_align_script C sample (py_str db) temp_dir)) fs)
    as ->.
  { unfold qc_filter_run. rewrite Hdb. by destruct db. }
  rewrite (align_run C T cwd sample (py_str db) temp_dir fs Hready).
  destruct (align_input_read C cwd sample temp_dir fs Hready i1 i2 Hi1 Hi2)
    as [-> ->].
  rewrite Henv, Hbt. cbv zeta. split; [done|].
  unfold final. cbn [fst List.last].
  apply (align_removed_success C cwd sample temp_dir fs Hready).
Qed.

(** C1.  A sample with a filter database, trimmed reads in place, and
    an activation and an aligner that succeed: the task ends well, its
    two outputs hold the compressed FASTQ files of the pairs the pipe
    extracts, and each such pair consists of the entries of two records of
    the aligner's stream, of one read name, both flagged as unmapped
    (0x4) with the mate flagged as unmapped (0x8), and neither a
    secondary alignment (0x100). *)
Theorem filtered_pairs_unmapped (C : config) (T : tools)
  (cwd sample temp_dir : string) (fs : FS) (db : pyval) (i1 i2 : content)
  (sam : list Sam.record) (err : content) :
  qc_filter_filter_db C sample = Some db -> db <> PyNone ->
  align_ready C cwd sample temp_dir fs ->
  fs !! key cwd (forward (qc_filter_input C sample)) = Some (File i1) ->
  fs !! key cwd (reverse (qc_filter_input C sample)) = Some (File i2) ->
  env_ok T (envs_qc C) = true ->
  bowtie2 T qc_filter_threads (py_str db) i1 i2 = Some (sam, err) ->
  let r := qc_filter_run C T cwd sample temp_dir fs in
  exists pairs : list (Sam.fastq_read * Sam.fastq_read),
    r.2 = Success
    /\ read cwd (final fs r) (forward (qc_filter_output C sample))
        = Some (Gz (Fastq (map fst pairs)))
    /\ read cwd (final fs r) (reverse (qc_filter_output C sample))
        = Some (Gz (Fastq (map snd pairs)))
    /\ forall x y, In (x, y) pairs ->
         exists a b, In a sam /\ In b sam
           /\ Sam.qname a = Sam.qname b
           /\ x = Sam.to_read "/1" a /\ y = Sam.to_read "/2" b
           /\ Sam.has_flag Sam.UNMAP a = true
           /\ Sam.has_flag Sam.MUNMAP a = true
           /\ Sam.has_flag Sam.SECONDARY a = false
           /\ Sam.has_flag Sam.UNMAP b = true
           /\ Sam.has_flag Sam.MUNMAP b = true
           /\ Sam.has_flag Sam.SECONDARY b = false.
Proof.
  intros Hdb Hne Hready Hi1 Hi2 Henv Hbt r.
  destruct (align_outputs C T cwd sample temp_dir fs db i1 i2 sam err
              Hdb Hne Hready Hi1 Hi2 Henv Hbt) as [Hst Hfin].
  fold r in Hst, Hfin.
  exists (Sam.bamtofastq (apply_filters T qc_filter_stages sam)).
  pose proof (link_keys_distinct C cwd sample) as (Hfr & _).
  split; [done|]. rewrite Hfin. repeat split.
  - apply read_file. rewrite lookup_insert_ne by by apply not_eq_sym.
    apply lookup_insert_eq.
  - apply read_file. apply lookup_insert_eq.
  - intros x y Hxy.
    destruct (bamtofastq_pairs _ _ _ Hxy)
      as (a & b & Ha & Hb & Hq & _ & _ & -> & ->).
    apply kept_records in Ha as [Ha Hka]. apply kept_records in Hb as [Hb Hkb].
    destruct (view_keep_12_256 a Hka) as (? & ? & ?).
    destruct (view_keep_12_256 b Hkb) as (? & ? & ?).
    exists a, b. repeat split; done.
Qed.


Lemma scenario_align_ready :
  align_ready (Scenario.cfg (PyStr "/db/host")) Scenario.cwd "S1" "/tmp/tmp2"
    Scenario.fs_trimmed.
Proof.
  unfold align_ready, scratch_ready, target_ready.
  split; [reflexivity|]. split; [split; [done|]|].
  - apply (bool_decide_unpack _). vm_compute. exact I.
  - repeat match goal with |- _ /\ _ => split end;
      first [ vm_compute; exact I
            | apply (bool_decide_unpack _); vm_compute; exact I ].
Qed.

Lemma filtered_pairs_unmapped_witness :
  let r := qc_filter_run (Scenario.cfg (PyStr "/db/host")) Scenario.working
             Scenario.cwd "S1" "/tmp/tmp2" Scenario.fs_trimmed in
  exists pairs : list (Sam.fastq_read * Sam.fastq_read),
    r.2 = Success
    /\ read Scenario.cwd (final Scenario.fs_trimmed r)
          "data/qc/S1/filtered/S1.R1.trimmed.filtered.fastq.gz"
        = Some (Gz (Fastq (map fst pairs)))
    /\ read Scenario.cwd (final Scenario.fs_trimmed r)
          "data/qc/S1/filtered/S1.R2.trimmed.filtered.fastq.gz"
        = Some (Gz (Fastq (map snd pairs)))
    /\ forall x y, In (x, y) pairs ->
         exists a b, In a Scenario.sam_stream /\ In b Scenario.sam_stream
           /\ Sam.qname a = Sam.qname b
           /\ x = Sam.to_read "/1" a /\ y = Sam.to_read "/2" b
           /\ Sam.has_flag Sam.UNMAP a = true
           /\ Sam.has_flag Sam.MUNMAP a = true
           /\ Sam.has_flag Sam.SECONDARY a = false
           /\ Sam.has_flag Sam.UNMAP b = true
           /\ Sam.has_flag Sam.MUNMAP b = true
           /\ Sam.has_flag Sam.SECONDARY b = false.
Proof.
  apply (filtered_pairs_unmapped (Scenario.cfg (PyStr "/db/host"))
           Scenario.working Scenario.cwd "S1" "/tmp/tmp2" Scenario.fs_trimmed
           (PyStr "/db/host")
           (Gz (Fastq [Scenario.entry "a/1"]))
           (Gz (Fastq [Scenario.entry "a/2"]))
           Scenario.sam_stream (Text "aligned")).
  - vm_compute. reflexivity.
  - discriminate.
  - exact scenario_align_ready.
  - vm_compute. reflexivity.
  - vm_compute. reflexivity.
  - reflexivity.
  - reflexivity.
Defined.


(** The scenario's run: of the four pairs aligned, the two unmapped
    ones are written, in name order. *)
Example scenario_filtered :
  let r := qc_filter_run (Scenario.cfg (PyStr "/db/host")) Scenario.working
             Scenario.cwd "S1" "/tmp/tmp2" Scenario.fs_trimmed in
  read Scenario.cwd (final Scenario.fs_trimmed r)
    "data/qc/S1/filtered/S1.R1.trimmed.filtered.fastq.gz"
  = Some (Gz (Fastq [Scenario.entry "r1/1"; Scenario.entry "r2/1"]))
  /\ read Scenario.cwd (final Scenario.fs_trimmed r)
       "data/qc/S1/filtered/S1.R2.trimmed.filtered.fastq.gz"
     = Some (Gz (Fastq [Scenario.entry "r1/2"; Scenario.entry "r2/2"])).
Proof. split; vm_compute; reflexivity. Qed.

End filtered_pairs.

(** ** qc_atropos *)

Section name_facts.
Import Path Fs.

(** Different names in whatever directories are different files. *)
Lemma key_neq_name (cwd d d' c c' : string) :
  d <> "" -> d' <> "" -> clean c = true -> clean c' = true -> c <> c' ->
  key cwd (d +:+ "/" +:+ c) <> key cwd (d' +:+ "/" +:+ c').
Proof.
  intros Hd Hd' Hc Hc' Hne. rewrite !key_in_dir by done.
  by intros [_ [= ?]]%app_inj_tail.
Qed.

Lemma vacant_outside (fs : FS) (k k' : list string) (n : node) :
  vacant k fs -> fs !! k' = Some n -> ~ k `prefix_of` k'.
Proof. intros Hv Hk. exact (Hv k' n Hk). Qed.

End name_facts.

Section trim_rule.
Import Path Fs Shell Rules.

Variables (C : config) (T : tools) (cwd sample trimmer tmp : string) (fs : FS).

Let input := qc_atropos_input C sample.
Let output := qc_atropos_output C sample trimmer.
Let f_fp := basename (forward output).
Let r_fp := basename (reverse output).
Let ktmp := key cwd tmp.
Let kof := key cwd (forward output).
Let kor := key cwd (reverse output).
Let klog := key cwd (qc_atropos_log C sample).
Let ka1 := ktmp ++ [f_fp].
Let ka2 := ktmp ++ [r_fp].

Hypothesis Hready : trim_ready C cwd sample trimmer tmp fs.

Lemma trim_scratch_keys :
  key cwd (tmp +:+ "/" +:+ f_fp) = ka1 /\ key cwd (tmp +:+ "/" +:+ r_fp) = ka2.
Proof.
  destruct Hready as ([Htmp _] & _). unfold ka1, ka2, ktmp, f_fp, r_fp, output.
  simpl. split; apply key_in_dir; try done.
  - rewrite <- !sapp_assoc. by apply basename_clean.
  - rewrite <- !sapp_assoc. by apply basename_clean.
Qed.

Lemma trim_names_distinct : f_fp <> r_fp.
Proof.
  unfold f_fp, r_fp, output. simpl.
  rewrite <- !sapp_assoc.
  destruct (basename_ending
              ((((qc_dir C +:+ sample) +:+ "/") +:+ trimmer) +:+ "_trimmed/"
               +:+ sample) ".trimmed.R1.fastq.gz" eq_refl) as [c1 H1].
  destruct (basename_ending
              ((((qc_dir C +:+ sample) +:+ "/") +:+ trimmer) +:+ "_trimmed/"
               +:+ sample) ".trimmed.R2.fastq.gz" eq_refl) as [c2 H2].
  rewrite !sapp_assoc in H1, H2. rewrite !sapp_assoc, H1, H2.
  by apply sapp_neq_tail.
Qed.

Lemma trim_outside :
  ~ ktmp `prefix_of` kof /\ ~ ktmp `prefix_of` kor /\ ~ ktmp `prefix_of` klog.
Proof. by destruct Hready as (_ & [_ ?] & [_ ?] & [_ ?]). Qed.

Lemma trim_keys_distinct :
  ktmp <> ka1 /\ ktmp <> ka2 /\ ktmp <> kof /\ ktmp <> kor /\ ktmp <> klog
  /\ ka1 <> ka2 /\ ka1 <> kof /\ ka1 <> kor /\ ka1 <> klog
  /\ ka2 <> kof /\ ka2 <> kor /\ ka2 <> klog
  /\ kof <> kor /\ kof <> klog /\ kor <> klog.
Proof.
  destruct trim_outside as (Oof & Oor & Olog).
  assert (forall k k', ~ ktmp `prefix_of` k -> ktmp `prefix_of` k' -> k' <> k)
    as Hout by (by intros k k' Hk Hk' ->).
  assert (ktmp `prefix_of` ktmp) as Hp0 by done.
  assert (ktmp `prefix_of` ka1) as Hp1 by apply prefix_snoc.
  assert (ktmp `prefix_of` ka2) as Hp2 by apply prefix_snoc.
  repeat match goal with |- _ /\ _ => split end;
    try (by apply not_eq_sym, snoc_ne);
    try (by eapply Hout);
    try (apply snoc_inj_ne, trim_names_distinct).
  - unfold kof, kor, output. simpl. key_neq_by "R1.fastq.gz" "R2.fastq.gz".
  - unfold kof, klog, output, qc_atropos_log. simpl. key_neq_by ".gz" "log".
  - unfold kor, klog, output, qc_atropos_log. simpl. key_neq_by ".gz" "log".
Qed.

(** The run of qc_atropos, by the outcome of the activation and of the
    trimmer. *)
Lemma trim_run :
  let fs0 := <[ktmp := Dir]> fs in
  let fsP := <[klog := Partial]> (<[ka2 := Partial]>
               (<[ka1 := Partial]> fs0)) in
  qc_atropos_run C T cwd sample trimmer tmp fs
  = if env_ok T (envs_qc C) then
      match read cwd fsP (forward input), read cwd fsP (reverse input) with
      | Some i1, Some i2 =>
          match atropos T qc_atropos_threads (params_atropos C) i1 i2 with
          | Some (t1, t2, rep) =>
              let fsF := <[klog := File rep]> (<[ka2 := File t2]>
                           (<[ka1 := File t1]> fsP)) in
              let fsE := <[kof := File t1]> fsF in
              let fsG := <[kor := File t2]> fsE in
              ([fs0; fsP; fsF; fsE; fsG; rmtree ktmp fsG], Success)
          | None => ([fs0; fsP; rmtree ktmp fsP], CalledProcessError)
          end
      | _, _ => ([fs0; fsP; rmtree ktmp fsP], CalledProcessError)
      end
    else ([fs0; rmtree ktmp fs0], CalledProcessError).
Proof.
  intros fs0 fsP.
  pose proof trim_keys_distinct as Hne. destruct_and!.
  destruct trim_scratch_keys as (Hk1 & Hk2).
  destruct Hready as ([_ Hv] & [Pof _] & [Por _] & [Plog _]).
  fold ktmp kof kor klog in Hv, Pof, Por, Plog.
  assert (plain fs0 ka1 /\ plain fs0 ka2 /\ plain fs0 klog
          /\ plain fs0 kof /\ plain fs0 kor) as (P1 & P2 & Plog0 & Pof0 & Por0).
  { repeat match goal with |- _ /\ _ => split end;
      (apply plain_insert_ne; [ne|]); try done;
      eapply vacant_plain; try exact Hv; apply prefix_snoc. }
  unfold qc_atropos_run, qc_atropos_script. fold input output f_fp r_fp.
  assert (exec T cwd
            (Atropos qc_atropos_threads (params_atropos C)
               (qc_atropos_log C sample) (tmp +:+ "/" +:+ f_fp)
               (tmp +:+ "/" +:+ r_fp) (forward input) (reverse input)) fs0
          = match read cwd fsP (forward input),
                  read cwd fsP (reverse input) with
            | Some i1, Some i2 =>
                match atropos T qc_atropos_threads (params_atropos C) i1 i2
                with
                | Some (t1, t2, rep) =>
                    ([fsP;
                      <[klog := File rep]> (<[ka2 := File t2]>
                         (<[ka1 := File t1]> fsP))], Success)
                | None => ([fsP], CalledProcessError)
                end
            | _, _ => ([fsP], CalledProcessError)
            end) as Htool.
  { unfold exec. rewrite produce_plain.
    - cbn [mark fold_left]. fold klog. rewrite Hk1, Hk2. fold fsP.
      destruct (read cwd fsP (forward input)) as [i1|]; [|done].
      destruct (read cwd fsP (reverse input)) as [i2|]; [|done].
      destruct (atropos T qc_atropos_threads (params_atropos C) i1 i2)
        as [[[t1 t2] rep]|]; [|done].
      cbn [fill fold_left fst snd]. fold klog. by rewrite Hk1, Hk2.
    - repeat (apply Forall_cons; split); try apply Forall_nil;
        by rewrite ?Hk1, ?Hk2.
    - intros outs.
      destruct (read cwd _ (forward input)) as [i1|]; [|done].
      destruct (read cwd _ (reverse input)) as [i2|]; [|done].
      destruct (atropos T qc_atropos_threads (params_atropos C) i1 i2)
        as [[[t1 t2] rep]|]; [|done].
      intros [= <-].
      repeat (apply Forall_cons; split); try apply Forall_nil; cbn [fst];
        by rewrite ?Hk1, ?Hk2. }
  destruct (env_ok T (envs_qc C)) eqn:Henv.
  2:{ rewrite (with_tempdir_run _ _ _ _ [] CalledProcessError); [done|done|].
      apply shell_stop. by rewrite exec_activate, Henv. }
  assert (forall rest tr st,
            shell T cwd rest fs0 = (tr, st) ->
            shell T cwd (Activate (envs_qc C) :: rest) fs0 = (tr, st))
    as Hact.
  { intros rest tr st Hrest.
    apply (shell_step _ _ _ _ _ [] fs0 tr st);
      [by rewrite exec_activate, Henv|done|done]. }
  destruct (read cwd fsP (forward input)) as [i1|] eqn:Hi1.
  2:{ rewrite (with_tempdir_run _ _ _ _ [fsP] CalledProcessError);
        [done|done|].
      by apply Hact, shell_stop. }
  destruct (read cwd fsP (reverse input)) as [i2|] eqn:Hi2.
  2:{ rewrite (with_tempdir_run _ _ _ _ [fsP] CalledProcessError);
        [done|done|].
      by apply Hact, shell_stop. }
  destruct (atropos T qc_atropos_threads (params_atropos C) i1 i2)
    as [[[t1 t2] rep]|] eqn:Htrim.
  2:{ rewrite (with_tempdir_run _ _ _ _ [fsP] CalledProcessError);
        [done|done|].
      by apply Hact, shell_stop. }
  cbv zeta.
  set (fsF := <[klog := File rep]> _).
  set (fsE := <[kof := File t1]> fsF).
  set (fsG := <[kor := File t2]> fsE).
  rewrite (with_tempdir_run _ _ _ _ [fsP; fsF; fsE; fsG] Success);
    [done|done|].
  apply Hact.
  apply (shell_step _ _ _ _ _ [fsP; fsF] fsF [fsE; fsG] Success);
    [exact Htool|done|].
  apply (shell_step _ _ _ _ _ [fsE] fsE [fsG] Success); [|done|].
  { apply exec_scp.
    - apply read_file. rewrite Hk1. unfold fsF. by look.
    - by repeat (apply plain_insert; [done|]). }
  apply (shell_step _ _ _ _ _ [fsG] fsG [] Success); [|done|done].
  apply exec_scp.
  - apply read_file. rewrite Hk2. unfold fsE, fsF. by look.
  - by repeat (apply plain_insert; [done|]).
Qed.

(** What is left when the scratch directory is removed. *)
Lemma trim_removed_success (v1 v2 v3 v4 v5 : node) :
  let fs0 := <[ktmp := Dir]> fs in
  let fsP := <[klog := Partial]> (<[ka2 := Partial]>
               (<[ka1 := Partial]> fs0)) in
  rmtree ktmp
    (<[kor := v5]> (<[kof := v4]> (<[klog := v3]> (<[ka2 := v2]>
       (<[ka1 := v1]> fsP)))))
  = <[kor := v5]> (<[kof := v4]> (<[klog := v3]> (<[klog := Partial]> fs))).
Proof.
  destruct trim_outside as (Oof & Oor & Olog).
  destruct Hready as ([_ Hv] & _). fold ktmp in Hv.
  intros fs0 fsP. unfold fsP, fs0.
  repeat first [ rewrite rmtree_insert_under by (first [done | apply prefix_snoc])
               | rewrite rmtree_insert_outside by assumption ].
  by rewrite rmtree_vacant.
Qed.

Lemma trim_removed_failure :
  let fs0 := <[ktmp := Dir]> fs in
  let fsP := <[klog := Partial]> (<[ka2 := Partial]>
               (<[ka1 := Partial]> fs0)) in
  rmtree ktmp fs0 = fs /\ rmtree ktmp fsP = <[klog := Partial]> fs.
Proof.
  destruct trim_outside as (Oof & Oor & Olog).
  destruct Hready as ([_ Hv] & _). fold ktmp in Hv.
  intros fs0 fsP. unfold fsP, fs0. split;
    repeat first [ rewrite rmtree_insert_under by (first [done | apply prefix_snoc])
                 | rewrite rmtree_insert_outside by assumption ];
    by rewrite rmtree_vacant.
Qed.





(** The raw reads are not among the files the rule writes. *)
Lemma trim_input_keys (k : list string) :
  slash_free sample = true ->
  k = kof \/ k = kor \/ k = klog ->
  key cwd (forward input) <> k /\ key cwd (reverse input) <> k.
Proof.
  intros Hs.
  assert (forall mate,
            ending mate = true -> String.length mate = 12%nat ->
            key cwd (raw_dir C +:+ sample +:+ "/combined_reads/"
                     +:+ sample +:+ mate)
            <> key cwd (qc_dir C +:+ sample +:+ "/" +:+ trimmer
                        +:+ "_trimmed/" +:+ sample +:+ ".trimmed" +:+ mate))
    as Hname.
  { intros mate Hm Hlen.
    assert (raw_dir C +:+ sample +:+ "/combined_reads/" +:+ sample +:+ mate
            = (raw_dir C +:+ sample +:+ "/combined_reads")
              +:+ "/" +:+ (sample +:+ mate)) as ->
      by (by rewrite !sapp_assoc).
    assert (qc_dir C +:+ sample +:+ "/" +:+ trimmer +:+ "_trimmed/"
              +:+ sample +:+ ".trimmed" +:+ mate
            = (qc_dir C +:+ sample +:+ "/" +:+ trimmer +:+ "_trimmed")
              +:+ "/" +:+ (sample +:+ ".trimmed" +:+ mate)) as ->
      by (by rewrite !sapp_assoc).
    apply key_neq_name.
    - intros H%(f_equal String.length). rewrite !sapp_length in H.
      simpl in H. lia.
    - intros H%(f_equal String.length). rewrite !sapp_length in H.
      simpl in H. lia.
    - by apply clean_ending.
    - apply clean_ending; [done|].
      apply andb_true_iff in Hm as [Hf Hd]. unfold ending.
      rewrite slash_free_app, dots_app, Hf. simpl. done.
    - intros H%(f_equal String.length). rewrite !sapp_length in H.
      simpl in H. lia. }
  unfold kof, kor, klog, input, output, qc_atropos_log. simpl.
  intros [-> | [-> | ->]]; split.
  - apply (Hname ".R1.fastq.gz"); done.
  - key_neq_by "R2.fastq.gz" "R1.fastq.gz".
  - key_neq_by "R1.fastq.gz" "R2.fastq.gz".
  - apply (Hname ".R2.fastq.gz"); done.
  - key_neq_by ".gz" "log".
  - key_neq_by ".gz" "log".
Qed.

End trim_rule.

(** ** Tools that write in place, and second runs *)

Section second_runs.
Import Path Fs Shell Rules.

(** A script that activates the environment and runs one tool, which
    writes [targets]. *)
Lemma tool_script_run (T : tools) (cwd env : string) (c : cmd)
  (targets : list string) (prog : FS -> option (list (string * content)))
  (fs : FS) :
  exec T cwd c fs = produce cwd fs targets prog ->
  Forall (fun p => plain fs (key cwd p)) targets ->
  (forall outs, prog (mark cwd targets fs) = Some outs ->
     Forall (fun pc => pc.1 ∈ targets) outs) ->
  shell T cwd [Activate env; c] fs
  = if env_ok T env then
      match prog (mark cwd targets fs) with
      | Some outs =>
          ([mark cwd targets fs; fill cwd outs (mark cwd targets fs)],
           Success)
      | None => ([mark cwd targets fs], CalledProcessError)
      end
    else ([], CalledProcessError).
Proof.
  intros Hexec Hplain Houts.
  destruct (env_ok T env) eqn:Henv.
  2:{ apply shell_stop. by rewrite exec_activate, Henv. }
  rewrite produce_plain in Hexec; [|done|].
  2:{ intros outs Hprog. eapply Forall_impl; [exact (Houts _ Hprog)|].
      intros pc Hpc. cbn beta in Hpc.
      by apply (proj1 (Forall_forall _ _) Hplain). }
  destruct (prog (mark cwd targets fs)) as [outs|].
  - apply (shell_step _ _ _ _ _ [] fs
             [mark cwd targets fs; fill cwd outs (mark cwd targets fs)]
             Success); [by rewrite exec_activate, Henv|done|].
    by apply (shell_step _ _ _ _ _ [mark cwd targets fs; fill cwd outs _]
                (fill cwd outs (mark cwd targets fs)) [] Success).
  - apply (shell_step _ _ _ _ _ [] fs [mark cwd targets fs]
             CalledProcessError); [by rewrite exec_activate, Henv|done|].
    by apply shell_stop.
Qed.


Lemma fastqc_tool (C : config) (T : tools) (cwd sample : string) :
  exists prog,
    qc_per_sample_fastqc_script C sample
    = [Activate (envs_qc C);
       Fastqc qc_per_sample_fastqc_threads
         (dirname (html (qc_per_sample_fastqc_output C sample)))
         (forward (qc_per_sample_fastqc_input C sample))
         (reverse (qc_per_sample_fastqc_input C sample))
         (qc_per_sample_fastqc_log C sample)]
    /\ (forall fs,
          exec T cwd
            (Fastqc qc_per_sample_fastqc_threads
               (dirname (html (qc_per_sample_fastqc_output C sample)))
               (forward (qc_per_sample_fastqc_input C sample))
               (reverse (qc_per_sample_fastqc_input C sample))
               (qc_per_sample_fastqc_log C sample)) fs
          = produce cwd fs (qc_per_sample_fastqc_targets C sample) prog)
    /\ (forall s outs, prog s = Some outs ->
          Forall (fun pc => pc.1 ∈ qc_per_sample_fastqc_targets C sample)
            outs).
Proof.
  eexists. split; [reflexivity|]. split; [intros fs; reflexivity|].
  intros s outs. cbv beta.
  destruct (read cwd s _) as [r1|]; [|done].
  destruct (read cwd s _) as [r2|]; [|done].
  destruct (fastqc T _ r1) as [[h1 z1]|]; [|done].
  destruct (fastqc T _ r2) as [[h2 z2]|]; [|done].
  intros [= <-]. unfold qc_per_sample_fastqc_targets. cbv zeta.
  repeat (apply Forall_cons; split); try (by apply Forall_nil); cbn [fst];
    rewrite !elem_of_cons; tauto.
Qed.

Lemma multiqc_tool (C : config) (T : tools) (cwd : string) :
  exists prog,
    qc_per_sample_multiqc_script C
    = [Activate (envs_qc C);
       Multiqc (dirname (qc_per_sample_multiqc_output C))
         [qc_dir C +:+ "/*/fastqc_per_sample"; qc_dir C +:+ "/logs"]
         (qc_per_sample_multiqc_log C)]
    /\ (forall fs,
          exec T cwd
            (Multiqc (dirname (qc_per_sample_multiqc_output C))
               [qc_dir C +:+ "/*/fastqc_per_sample"; qc_dir C +:+ "/logs"]
               (qc_per_sample_multiqc_log C)) fs
          = produce cwd fs (qc_per_sample_multiqc_targets C) prog)
    /\ (forall s outs, prog s = Some outs ->
          Forall (fun pc => pc.1 ∈ qc_per_sample_multiqc_targets C) outs).
Proof.
  eexists. split; [reflexivity|]. split; [intros fs; reflexivity|].
  intros s outs. cbv beta.
  destruct (multiqc T _) as [[report err]|]; [|done].
  intros [= <-]. unfold qc_per_sample_multiqc_targets. cbv zeta.
  repeat (apply Forall_cons; split); try (by apply Forall_nil); cbn [fst];
    rewrite !elem_of_cons; tauto.
Qed.










End second_runs.

(** ** Partly written outputs *)

Section visibility.
Import Path Fs Shell Rules.

Lemma final_in (fs : FS) (r : run) : r.1 <> [] -> final fs r ∈ r.1.
Proof.
  destruct r as [tr st]. unfold final. cbn [fst].
  destruct tr as [|s tr] using rev_ind; [done|]. intros _.
  rewrite last_last, elem_of_app, list_elem_of_singleton. by right.
Qed.

Lemma scenario_trim_ready :
  job_ready (Scenario.cfg PyNone) Scenario.cwd (QcAtropos "S1" "atropos")
    "/tmp/tmp1" Scenario.fs_raw.
Proof.
  unfold job_ready, trim_ready, scratch_ready, target_ready.
  split; [reflexivity|]. split; [split; [done|]|].
  - apply (bool_decide_unpack _). vm_compute. exact I.
  - repeat match goal with |- _ /\ _ => split end;
      first [ vm_compute; exact I
            | apply (bool_decide_unpack _); vm_compute; exact I ].
Qed.




End visibility.

(** ** Second runs *)

Section idempotence.
Import Path Fs Shell Rules.




(** The reports of the small workflow: both report rules end well after
    either branch of the filter, the combined report is written, and a
    second run of the combining rule leaves the same files. *)
Example scenario_reports :
  let C := Scenario.cfg PyNone in
  (qc_per_sample_fastqc_run C Scenario.working Scenario.cwd "S1"
     Scenario.fs_filtered).2 = Success
  /\ (qc_per_sample_fastqc_run C Scenario.working Scenario.cwd "S1"
        Scenario.fs_linked).2 = Success
  /\ (qc_per_sample_multiqc_run C Scenario.working Scenario.cwd
        Scenario.fs_reported).2 = Success
  /\ read Scenario.cwd Scenario.fs_combined
       (qc_per_sample_multiqc_output C) = Some (Text "report")
  /\ map_to_list
       (final Scenario.fs_combined
          (qc_per_sample_multiqc_run C Scenario.working Scenario.cwd
             Scenario.fs_combined))
     = map_to_list Scenario.fs_combined.
Proof. vm_compute. repeat split. Qed.

End idempotence.

(** * Further properties of the rules *)

(** ** What a run leaves alone *)

Section frames.
Import Path Fs Shell Rules.
Variables (C : config) (T : tools) (cwd : string) (fs : FS).

Lemma outside_scratch (tmp : string) (k : list string) :
  ~ key cwd tmp `prefix_of` k ->
  key cwd tmp <> k /\ forall c, key cwd tmp ++ [c] <> k.
Proof.
  intros Hpre. split; [by intros <-|].
  intros c <-. apply Hpre, prefix_snoc.
Qed.

Lemma trim_frame (sample trimmer tmp : string) (s : FS) (k : list string) :
  trim_ready C cwd sample trimmer tmp fs ->
  Forall (fun p => key cwd p <> k) (job_writes C (QcAtropos sample trimmer)) ->
  ~ key cwd tmp `prefix_of` k ->
  s ∈ (qc_atropos_run C T cwd sample trimmer tmp fs).1 -> s !! k = fs !! k.
Proof.
  intros Hready Hw Hpre.
  cbn [job_writes job_output job_log app] in Hw.
  apply Forall_cons in Hw as [Hof Hw]. apply Forall_cons in Hw as [Hor Hw].
  apply Forall_cons in Hw as [Hlog _].
  destruct (outside_scratch tmp k Hpre) as [Htmp Hsc].
  rewrite (trim_run C T cwd sample trimmer tmp fs Hready). cbv zeta.
  destruct (trim_removed_failure C cwd sample trimmer tmp fs Hready)
    as [Hr0 HrP].
  destruct (env_ok T (envs_qc C)).
  2:{ cbn [fst]. rewrite !elem_of_cons, elem_of_nil.
      intros [->|[->|[]]]; rewrite ?Hr0;
        by rewrite ?lookup_insert_ne by first [assumption | apply Hsc]. }
  assert (forall s',
            s' ∈ [<[key cwd tmp := Dir]> fs;
                  <[key cwd (qc_atropos_log C sample) := Partial]>
                    (<[key cwd tmp
                       ++ [basename (reverse (qc_atropos_output C sample trimmer))]
                       := Partial]>
                       (<[key cwd tmp
                          ++ [basename (forward (qc_atropos_output C sample trimmer))]
                          := Partial]> (<[key cwd tmp := Dir]> fs)));
                  rmtree (key cwd tmp)
                    (<[key cwd (qc_atropos_log C sample) := Partial]>
                       (<[key cwd tmp
                          ++ [basename (reverse (qc_atropos_output C sample trimmer))]
                          := Partial]>
                          (<[key cwd tmp
                             ++ [basename (forward (qc_atropos_output C sample trimmer))]
                             := Partial]> (<[key cwd tmp := Dir]> fs))))] ->
            s' !! k = fs !! k) as Hfail.
  { intros s'. rewrite !elem_of_cons, elem_of_nil.
    intros [->|[->|[->|[]]]]; rewrite ?HrP;
      by rewrite ?lookup_insert_ne by first [assumption | apply Hsc]. }
  destruct (read cwd _ _) as [i1|]; [|apply Hfail].
  destruct (read cwd _ _) as [i2|]; [|apply Hfail].
  destruct (atropos T qc_atropos_threads (params_atropos C) i1 i2)
    as [[[t1 t2] rep]|]; [|apply Hfail].
  cbn [fst].
  rewrite (trim_removed_success C cwd sample trimmer tmp fs Hready).
  rewrite !elem_of_cons, elem_of_nil.
  intros [->|[->|[->|[->|[->|[->|[]]]]]]];
    by rewrite ?lookup_insert_ne by first [assumption | apply Hsc].
Qed.

Lemma align_frame (sample db tmp : string) (s : FS) (k : list string) :
  align_ready C cwd sample tmp fs ->
  Forall (fun p => key cwd p <> k) (job_writes C (QcFilter sample)) ->
  ~ key cwd tmp `prefix_of` k ->
  s ∈ (with_tempdir cwd tmp
         (shell T cwd (qc_filter_align_script C sample db tmp)) fs).1 ->
  s !! k = fs !! k.
Proof.
  intros Hready Hw Hpre.
  cbn [job_writes job_output job_log app] in Hw.
  apply Forall_cons in Hw as [Hof Hw]. apply Forall_cons in Hw as [Hor Hw].
  apply Forall_cons in Hw as [Hlb Hw]. apply Forall_cons in Hw as [Hlo _].
  destruct (outside_scratch tmp k Hpre) as [Htmp Hsc].
  rewrite (align_run C T cwd sample db tmp fs Hready). cbv zeta.
  destruct (align_removed_failure C cwd sample tmp fs Hready) as [Hr0 HrP].
  assert (forall l : list FS,
            Forall (fun s' => s' !! k = fs !! k) l -> s ∈ l ->
            s !! k = fs !! k) as Hall.
  { intros l Hl Hs. by apply (proj1 (Forall_forall _ _) Hl). }
  destruct (env_ok T (envs_qc C)).
  2:{ cbn [fst]. rewrite Hr0. apply Hall.
      repeat (apply Forall_cons; split); try (by apply Forall_nil);
        by rewrite ?lookup_insert_ne by first [assumption | apply Hsc]. }
  destruct (read cwd _ _) as [i1|].
  2:{ cbn [fst]. rewrite HrP. apply Hall.
      repeat (apply Forall_cons; split); try (by apply Forall_nil);
        by rewrite ?lookup_insert_ne by first [assumption | apply Hsc]. }
  destruct (read cwd _ _) as [i2|].
  2:{ cbn [fst]. rewrite HrP. apply Hall.
      repeat (apply Forall_cons; split); try (by apply Forall_nil);
        by rewrite ?lookup_insert_ne by first [assumption | apply Hsc]. }
  destruct (bowtie2 T qc_filter_threads db i1 i2) as [[sam err]|].
  2:{ cbn [fst]. rewrite HrP. apply Hall.
      repeat (apply Forall_cons; split); try (by apply Forall_nil);
        by rewrite ?lookup_insert_ne by first [assumption | apply Hsc]. }
  cbn [fst]. rewrite (align_removed_success C cwd sample tmp fs Hready).
  apply Hall.
  repeat (apply Forall_cons; split); try (by apply Forall_nil);
    by rewrite ?lookup_insert_ne by first [assumption | apply Hsc].
Qed.

Lemma link_frame (sample : string) (s : FS) (k : list string) :
  link_ready C cwd sample fs ->
  Forall (fun p => key cwd p <> k) (job_writes C (QcFilter sample)) ->
  s ∈ (shell T cwd (qc_filter_link_script C cwd sample) fs).1 ->
  s !! k = fs !! k.
Proof.
  intros (Hof & Hor & Hlb & Hlo) Hw.
  cbn [job_writes job_output job_log app] in Hw.
  apply Forall_cons in Hw as [Kof Hw]. apply Forall_cons in Hw as [Kor Hw].
  apply Forall_cons in Hw as [Klb Hw]. apply Forall_cons in Hw as [Klo _].
  rewrite (link_script_run C T cwd sample fs Hof Hor Hlb Hlo). cbn [fst].
  rewrite !elem_of_cons, elem_of_nil.
  intros [->|[->|[->|[->|[]]]]]; by rewrite ?lookup_insert_ne by assumption.
Qed.

Lemma tool_script_frame (env : string) (c : cmd) (targets : list string)
  (prog : FS -> option (list (string * content))) (s : FS)
  (k : list string) :
  (forall fs', exec T cwd c fs' = produce cwd fs' targets prog) ->
  Forall (fun p => plain fs (key cwd p)) targets ->
  (forall s' outs, prog s' = Some outs ->
     Forall (fun pc => pc.1 ∈ targets) outs) ->
  Forall (fun p => key cwd p <> k) targets ->
  s ∈ (shell T cwd [Activate env; c] fs).1 -> s !! k = fs !! k.
Proof.
  intros Hexec Hplain Houts Hw.
  assert (forall p, p ∈ targets -> key cwd p <> k) as Hk
    by (by apply Forall_forall).
  rewrite (tool_script_run T cwd env c targets prog fs) by eauto.
  destruct (env_ok T env); [|by intros ?%elem_of_nil].
  destruct (prog (mark cwd targets fs)) as [outs|] eqn:Hprog; cbn [fst];
    rewrite !elem_of_cons, elem_of_nil.
  - intros [->|[->|[]]].
    + by apply mark_lookup_notin.
    + rewrite fill_lookup_notin; [by apply mark_lookup_notin|].
      intros pc Hpc. apply Hk.
      by apply (proj1 (Forall_forall _ _) (Houts _ _ Hprog)).
  - intros [->|[]]. by apply mark_lookup_notin.
Qed.

End frames.

Section frame_rule.
Import Path Fs Shell Rules.


(** The frame of a run; the scratch directory matters only to the jobs
    that make one. *)
Lemma job_frame (C : config) (T : tools) (cwd temp_dir : string)
  (j : job) (fs : FS) (k : list string) (s : FS) :
  job_ready C cwd j temp_dir fs ->
  Forall (fun p => key cwd p <> k) (job_writes C j) ->
  match j with
  | QcAtropos _ _ | QcFilter _ => ~ key cwd temp_dir `prefix_of` k
  | _ => True
  end ->
  s ∈ (job_run C T cwd j temp_dir fs).1 ->
  s !! k = fs !! k.
Proof.
  intros Hready Hw Hpre.
  destruct j as [sample trimmer|sample|sample| |].
  - destruct Hready as [_ Hready]. by apply trim_frame.
  - cbn [job_run job_ready] in *. unfold qc_filter_run.
    destruct (qc_filter_filter_db C sample) as [[|d|b]|].
    + by apply link_frame.
    + by apply align_frame.
    + by apply align_frame.
    + by intros ?%elem_of_nil.
  - destruct Hready as [_ Hplain].
    destruct (fastqc_tool C T cwd sample) as (prog & Hscript & Hexec & Houts).
    cbn [job_run]. unfold qc_per_sample_fastqc_run. rewrite Hscript.
    by apply (tool_script_frame T cwd fs _ _
                (qc_per_sample_fastqc_targets C sample) prog).
  - destruct (multiqc_tool C T cwd) as (prog & Hscript & Hexec & Houts).
    cbn [job_run]. unfold qc_per_sample_multiqc_run. rewrite Hscript.
    by apply (tool_script_frame T cwd fs _ _
                (qc_per_sample_multiqc_targets C) prog).
  - by intros ?%elem_of_nil.
Qed.



(** The declared inputs of a job are not among the paths it writes. *)
Lemma input_not_written (C : config) (cwd : string) (j : job)
  (p w : string) :
  match j with
  | QcAtropos sample _ => slash_free sample = true
  | _ => True
  end ->
  p ∈ job_input C j -> w ∈ job_writes C j -> key cwd w <> key cwd p.
Proof.
  intros Hs Hp Hw. apply not_eq_sym. revert Hp Hw.
  destruct j as [sample trimmer|sample|sample| |].
  - cbn [job_input job_writes job_output job_log app].
    rewrite !elem_of_cons, !elem_of_nil.
    intros Hp Hw.
    assert (key cwd p = key cwd (forward (qc_atropos_input C sample))
            \/ key cwd p = key cwd (reverse (qc_atropos_input C sample)))
      as Hp' by (destruct Hp as [->|[->|[]]]; eauto).
    assert (key cwd w = key cwd (forward (qc_atropos_output C sample trimmer))
            \/ key cwd w
               = key cwd (reverse (qc_atropos_output C sample trimmer))
            \/ key cwd w = key cwd (qc_atropos_log C sample)) as Hw'
      by (destruct Hw as [->|[->|[->|[]]]]; eauto).
    destruct (trim_input_keys C cwd sample trimmer _ Hs Hw') as [? ?].
    by destruct Hp' as [-> | ->].
  - cbn [job_input job_writes job_output job_log app].
    rewrite !elem_of_cons, !elem_of_nil.
    destruct (link_keys_distinct C cwd sample)
      as (_ & _ & _ & _ & _ & ? & ? & ? & ? & ? & ? & ? & ?).
    by intros [->|[->|[]]] [->|[->|[->|[->|[]]]]].
  - cbn [job_input job_writes].
    unfold qc_per_sample_fastqc_targets, fastqc_html, fastqc_zip,
      qc_per_sample_fastqc_log. cbv zeta.
    rewrite !elem_of_cons, !elem_of_nil.
    intros [->|[->|[]]] [->|[->|[->|[->|[->|[]]]]]];
      cbn [forward reverse qc_per_sample_fastqc_input];
      first [ key_neq_by ".gz" "log" | key_neq_by ".gz" "tml"
            | key_neq_by ".gz" "zip" ].
  - cbn [job_input job_writes].
    unfold qc_per_sample_multiqc_input, expand,
      qc_per_sample_multiqc_targets, qc_per_sample_multiqc_log. cbv zeta.
    rewrite !elem_of_cons, !elem_of_nil.
    intros (sample & -> & _)%list_elem_of_fmap [->|[->|[]]];
      first [ key_neq_by "zip" "log" | key_neq_by "zip" "tml" ].
  - by intros _ ?%elem_of_nil.
Qed.

(** No run changes its own declared inputs: an input that exists when
    the job starts holds the same at every state the run goes through. *)
Theorem inputs_untouched (C : config) (T : tools) (cwd temp_dir : string)
  (j : job) (fs : FS) (p : string) (s : FS) :
  job_ready C cwd j temp_dir fs ->
  p ∈ job_input C j ->
  is_Some (fs !! key cwd p) ->
  s ∈ (job_run C T cwd j temp_dir fs).1 ->
  s !! key cwd p = fs !! key cwd p.
Proof.
  intros Hready Hp [n Hn].
  assert (Forall (fun w => key cwd w <> key cwd p) (job_writes C j)) as Hw.
  { apply Forall_forall. intros w Hw.
    apply (input_not_written C cwd j p w); [|done|done].
    destruct j; try done. by destruct Hready. }
  destruct j as [sample trimmer|sample|sample| |].
  - apply job_frame; [done|done|].
    destruct Hready as (_ & [_ Hv] & _). by eapply vacant_outside.
  - cbn [job_run job_ready] in *. unfold qc_filter_run.
    destruct (qc_filter_filter_db C sample) as [[|d|b]|].
    + by apply link_frame.
    + apply align_frame; [done|done|].
      destruct Hready as (_ & [_ Hv] & _). by eapply vacant_outside.
    + apply align_frame; [done|done|].
      destruct Hready as (_ & [_ Hv] & _). by eapply vacant_outside.
    + by intros ?%elem_of_nil.
  - by apply job_frame.
  - by apply job_frame.
  - by apply job_frame.
Qed.

Lemma inputs_untouched_witness :
  Scenario.fs_trimmed !! key Scenario.cwd "data/raw/S1/combined_reads/S1.R1.fastq.gz"
  = Scenario.fs_raw !! key Scenario.cwd "data/raw/S1/combined_reads/S1.R1.fastq.gz".
Proof.
  refine (inputs_untouched (Scenario.cfg PyNone) Scenario.working
            Scenario.cwd "/tmp/tmp1" (QcAtropos "S1" "atropos")
            Scenario.fs_raw _ Scenario.fs_trimmed scenario_trim_ready _ _ _).
  - apply elem_of_cons. left. reflexivity.
  - vm_compute. by eexists.
  - apply final_in. intros H%(f_equal length). revert H.
    vm_compute. discriminate.
Defined.

End frame_rule.

(** ** How a run ends *)

Section outcomes.
Import Path Fs Shell Rules.





(** When the environment cannot be activated, every job whose script
    activates it fails before any tool runs and leaves the whole state
    as it found it; only the link branch of qc_filter, whose script does
    not activate the environment, still ends well. *)
Theorem activation_failure_changes_nothing (C : config) (T : tools)
  (cwd temp_dir : string) (j : job) (fs : FS) :
  env_ok T (envs_qc C) = false ->
  job_ready C cwd j temp_dir fs ->
  let r := job_run C T cwd j temp_dir fs in
  (r.2 = Success <-> links_through C j = true \/ j = Qc)
  /\ (links_through C j = false -> final fs r = fs).
Proof.
  intros Henv Hready r. subst r.
  destruct j as [sample trimmer|sample|sample| |].
  - destruct Hready as [_ Hready]. cbn [job_run links_through].
    rewrite (trim_run C T cwd sample trimmer temp_dir fs Hready), Henv.
    destruct (trim_removed_failure C cwd sample trimmer temp_dir fs Hready)
      as [Hr0 _].
    cbv zeta. rewrite Hr0. split; [|done].
    split; [done|]. by intros [?|?].
  - cbn [job_run job_ready links_through] in *. unfold qc_filter_run.
    destruct (qc_filter_filter_db C sample) as [[|d|b]|].
    + destruct Hready as (Hof & Hor & Hlb & Hlo).
      rewrite (link_script_run C T cwd sample fs Hof Hor Hlb Hlo).
      split; [|done]. split; [by left|done].
    + rewrite (align_run C T cwd sample _ temp_dir fs Hready), Henv.
      destruct (align_removed_failure C cwd sample temp_dir fs Hready)
        as [Hr0 _].
      cbv zeta. rewrite Hr0. split; [|done].
      split; [done|]. by intros [?|?].
    + rewrite (align_run C T cwd sample _ temp_dir fs Hready), Henv.
      destruct (align_removed_failure C cwd sample temp_dir fs Hready)
        as [Hr0 _].
      cbv zeta. rewrite Hr0. split; [|done].
      split; [done|]. by intros [?|?].
    + split; [|done]. split; [done|]. by intros [?|?].
  - destruct Hready as [_ Hplain].
    destruct (fastqc_tool C T cwd sample) as (prog & Hscript & Hexec & Houts).
    cbn [job_run links_through]. unfold qc_per_sample_fastqc_run.
    rewrite Hscript.
    rewrite (tool_script_run T cwd _ _
               (qc_per_sample_fastqc_targets C sample) prog fs), Henv
      by eauto.
    split; [|done]. split; [done|]. by intros [?|?].
  - destruct (multiqc_tool C T cwd) as (prog & Hscript & Hexec & Houts).
    cbn [job_run links_through]. unfold qc_per_sample_multiqc_run.
    rewrite Hscript.
    rewrite (tool_script_run T cwd _ _
               (qc_per_sample_multiqc_targets C) prog fs), Henv
      by eauto.
    split; [|done]. split; [done|]. by intros [?|?].
  - split; [|done]. split; [by right|done].
Qed.

Lemma activation_failure_changes_nothing_witness :
  let r := qc_atropos_run (Scenario.cfg PyNone) Scenario.no_env
             Scenario.cwd "S1" "atropos" "/tmp/tmp1" Scenario.fs_raw in
  final Scenario.fs_raw r = Scenario.fs_raw.
Proof.
  refine (proj2 (activation_failure_changes_nothing (Scenario.cfg PyNone)
                   Scenario.no_env Scenario.cwd "/tmp/tmp1"
                   (QcAtropos "S1" "atropos") Scenario.fs_raw _
                   scenario_trim_ready) _).
  - reflexivity.
  - reflexivity.
Defined.



End outcomes.

(** ** Who writes what *)

Section owners.
Import Path Fs Shell Rules.

Lemma sapp_inj_head (c a b : string) : c +:+ a = c +:+ b -> a = b.
Proof.
  induction c as [|x c IH]; [done|]. rewrite !sapp_cons. intros [= H]. auto.
Qed.

(** A path that starts with a component: the component and the rest are
    determined. *)
Lemma slash_free_prefix (a b x y : string) :
  slash_free a = true -> slash_free b = true ->
  a +:+ String "/" x = b +:+ String "/" y -> a = b /\ x = y.
Proof.
  revert b. induction a as [|c a IH]; intros [|d b] Ha Hb.
  - by intros [= ->].
  - rewrite sapp_nil_l, sapp_cons. intros [= <- _]. by simpl in Hb.
  - rewrite sapp_nil_l, sapp_cons. intros [= -> _]. by simpl in Ha.
  - rewrite !sapp_cons. intros [= -> H].
    simpl in Ha, Hb.
    apply andb_true_iff in Ha as [_ Ha]. apply andb_true_iff in Hb as [_ Hb].
    by destruct (IH b Ha Hb H) as [-> ->].
Qed.

Lemma atropos_output_owner (C : config) (s t s' t' p : string) :
  slash_free s = true -> slash_free s' = true ->
  p ∈ job_output C (QcAtropos s t) -> p ∈ job_output C (QcAtropos s' t') ->
  s = s' /\ t = t'.
Proof.
  intros Hs Hs'. cbn [job_output qc_atropos_output forward reverse].
  rewrite !elem_of_cons, !elem_of_nil.
  intros [->|[->|[]]] [H|[H|[]]];
    try (by exfalso; revert H; neq_by "R1.fastq.gz" "R2.fastq.gz");
    try (by exfalso; revert H; neq_by "R2.fastq.gz" "R1.fastq.gz");
    apply sapp_inj_head in H;
    apply (slash_free_prefix s s') in H as [-> H]; try done;
    by apply (sapp_inj_tail t t' _ _ eq_refl) in H as [-> _].
Qed.

Lemma filter_output_owner (C : config) (s s' p : string) :
  slash_free s = true -> slash_free s' = true ->
  p ∈ job_output C (QcFilter s) -> p ∈ job_output C (QcFilter s') -> s = s'.
Proof.
  intros Hs Hs'. cbn [job_output qc_filter_output forward reverse].
  rewrite !elem_of_cons, !elem_of_nil.
  intros [->|[->|[]]] [H|[H|[]]];
    try (by exfalso; revert H;
            neq_by "R1.trimmed.filtered.fastq.gz"
                   "R2.trimmed.filtered.fastq.gz");
    try (by exfalso; revert H;
            neq_by "R2.trimmed.filtered.fastq.gz"
                   "R1.trimmed.filtered.fastq.gz");
    apply sapp_inj_head in H;
    by apply (slash_free_prefix s s') in H as [-> H].
Qed.

Lemma fastqc_output_owner (C : config) (s s' p : string) :
  slash_free s = true -> slash_free s' = true ->
  p ∈ job_output C (QcPerSampleFastqc s) ->
  p ∈ job_output C (QcPerSampleFastqc s') -> s = s'.
Proof.
  intros Hs Hs'. cbn [job_output qc_per_sample_fastqc_output html zip].
  rewrite !elem_of_cons, !elem_of_nil.
  intros [->|[->|[]]] [H|[H|[]]];
    try (by exfalso; revert H; neq_by "tml" "zip");
    try (by exfalso; revert H; neq_by "zip" "tml");
    apply sapp_inj_head in H;
    by apply (slash_free_prefix s s') in H as [-> H].
Qed.

(** Outputs of different rules differ in their endings. *)
Lemma output_rule (C : config) (j j' : job) (p : string) :
  p ∈ job_output C j -> p ∈ job_output C j' ->
  match j, j' with
  | QcAtropos _ _, QcAtropos _ _ | QcFilter _, QcFilter _
  | QcPerSampleFastqc _, QcPerSampleFastqc _
  | QcPerSampleMultiqc, QcPerSampleMultiqc => True
  | _, _ => False
  end.
Proof.
  destruct j as [s t|s|s| |], j' as [s' t'|s'|s'| |]; try done;
    cbn [job_output qc_atropos_output qc_filter_output
         qc_per_sample_fastqc_output forward reverse html zip];
    unfold qc_per_sample_multiqc_output;
    rewrite ?elem_of_cons, ?elem_of_nil;
    try (by intros _ []); try (by intros []).
  all: intros Hp Hp';
    repeat match goal with
           | H : _ \/ _ |- _ => destruct H as [H|H]
           | H : False |- _ => destruct H
           end; subst p; revert Hp';
    first [ neq_by "1.fastq.gz" "d.fastq.gz" | neq_by "2.fastq.gz" "d.fastq.gz"
          | neq_by "d.fastq.gz" "1.fastq.gz" | neq_by "d.fastq.gz" "2.fastq.gz"
          | neq_by ".gz" "tml" | neq_by ".gz" "zip"
          | neq_by "tml" ".gz" | neq_by "zip" ".gz"
          | neq_by "zip" "tml" | neq_by "tml" "zip"
          | neq_by "_fastqc.html" "_report.html"
          | neq_by "_report.html" "_fastqc.html" ].
Qed.

(** Two different jobs, for samples whose names are one path component,
    never declare the same output file. *)
Theorem outputs_disjoint (C : config) (j j' : job) (p : string) :
  (forall s, job_sample j = Some s -> slash_free s = true) ->
  (forall s, job_sample j' = Some s -> slash_free s = true) ->
  j <> j' ->
  p ∈ job_output C j -> p ∉ job_output C j'.
Proof.
  intros Hs Hs' Hne Hp Hp'. apply Hne.
  pose proof (output_rule C j j' p Hp Hp') as Hrule.
  destruct j as [s t|s|s| |], j' as [s' t'|s'|s'| |]; try done.
  - destruct (atropos_output_owner C s t s' t' p) as [-> ->]; auto.
  - rewrite (filter_output_owner C s s' p); auto.
  - rewrite (fastqc_output_owner C s s' p); auto.
Qed.

Lemma outputs_disjoint_witness :
  "data/qc/S1/atropos_trimmed/S1.trimmed.R1.fastq.gz"
  ∉ job_output (Scenario.cfg PyNone) (QcAtropos "S2" "atropos").
Proof.
  refine (outputs_disjoint (Scenario.cfg PyNone) (QcAtropos "S1" "atropos")
            (QcAtropos "S2" "atropos") _ _ _ _ _).
  - by intros s [= <-].
  - by intros s [= <-].
  - discriminate.
  - apply elem_of_cons. left. reflexivity.
Defined.

End owners.

(** ** The pairs that pass the filter *)

Section pair_count.
Import Sam Shell Rules.

Lemma land_bit (x n : Z) :
  0 <= n -> Z.land x (2 ^ n) = if Z.testbit x n then 2 ^ n else 0.
Proof.
  intros Hn. apply Z.bits_inj'. intros i Hi.
  rewrite Z.land_spec, Z.pow2_bits_eqb by done.
  destruct (Z.eqb_spec n i) as [->|Hne].
  - destruct (Z.testbit x i) eqn:Hx; [|by rewrite Z.bits_0].
    by rewrite Z.pow2_bits_eqb, Z.eqb_refl.
  - rewrite andb_false_r. destruct (Z.testbit x n); [|by rewrite Z.bits_0].
    rewrite Z.pow2_bits_eqb by done. symmetry. by apply Z.eqb_neq.
Qed.

(** [-f 12 -F 256], bit by bit. *)
Lemma view_keep_bits (r : record) :
  view_keep 12 256 r
  = has_flag UNMAP r && has_flag MUNMAP r && negb (has_flag SECONDARY r).
Proof.
  unfold view_keep, has_flag, UNMAP, MUNMAP, SECONDARY.
  change 12 with (Z.lor 4 8). rewrite Z.land_lor_distr_r.
  change 4 with (2 ^ 2). change 8 with (2 ^ 3). change 256 with (2 ^ 8).
  rewrite !land_bit by done.
  by destruct (Z.testbit (flag r) 2), (Z.testbit (flag r) 3),
    (Z.testbit (flag r) 8).
Qed.

(** The filter keeps both records of a pair or neither. *)
Lemma view_keep_mates (ab : record * record) :
  well_flagged ab ->
  view_keep 12 256 ab.1 = both_unmapped ab
  /\ view_keep 12 256 ab.2 = both_unmapped ab.
Proof.
  intros (_ & _ & _ & H1 & H2 & S1 & S2).
  rewrite !view_keep_bits, H1, H2, S1, S2. unfold both_unmapped.
  split; [|rewrite (andb_comm (has_flag UNMAP ab.2))]; by rewrite andb_true_r.
Qed.

Lemma view_flags_interleave (ps : list (record * record)) :
  Forall well_flagged ps ->
  view_flags 12 256 (interleave ps)
  = interleave (List.filter both_unmapped ps).
Proof.
  induction 1 as [|ab ps Hab _ IH]; [done|].
  unfold view_flags, interleave in *. cbn [flat_map app List.filter].
  destruct (view_keep_mates ab Hab) as [-> ->]. rewrite IH.
  by destruct (both_unmapped ab).
Qed.

Lemma insert_interleave (le : string -> string -> bool)
  (ab : record * record) (ps : list (record * record)) :
  (forall n, le n n = true) ->
  qname ab.1 = qname ab.2 ->
  Forall (fun cd => qname cd.1 = qname cd.2) ps ->
  insert_by_name le ab.1 (insert_by_name le ab.2 (interleave ps))
  = interleave (insert_pair le ab ps).
Proof.
  intros Hrefl Hab. induction 1 as [|cd ps Hcd _ IH].
  - cbn. by rewrite Hab, Hrefl.
  - change (interleave (cd :: ps)) with (cd.1 :: cd.2 :: interleave ps).
    cbn [insert_pair].
    destruct (le (qname ab.1) (qname cd.1)) eqn:Hle.
    + repeat (progress (cbn [insert_by_name];
                        rewrite <- ?Hab, <- ?Hcd, ?Hle, ?Hrefl)).
      done.
    + repeat (progress (cbn [insert_by_name];
                        rewrite <- ?Hab, <- ?Hcd, ?Hle, ?Hrefl)).
      change (interleave (cd :: insert_pair le ab ps))
        with (cd.1 :: cd.2 :: interleave (insert_pair le ab ps)).
      by rewrite <- IH.
Qed.

Lemma insert_pair_names (le : string -> string -> bool)
  (ab : record * record) (ps : list (record * record)) :
  qname ab.1 = qname ab.2 ->
  Forall (fun cd => qname cd.1 = qname cd.2) ps ->
  Forall (fun cd => qname cd.1 = qname cd.2) (insert_pair le ab ps).
Proof.
  intros Hab. induction 1 as [|cd ps Hcd Hps IH]; cbn.
  - by repeat constructor.
  - destruct (le _ _); by repeat constructor.
Qed.

Lemma sort_pairs_names (le : string -> string -> bool)
  (ps : list (record * record)) :
  Forall (fun cd => qname cd.1 = qname cd.2) ps ->
  Forall (fun cd => qname cd.1 = qname cd.2) (sort_pairs le ps).
Proof.
  induction 1 as [|ab ps Hab _ IH]; cbn; [done|].
  by apply insert_pair_names.
Qed.

Lemma sort_interleave (le : string -> string -> bool)
  (ps : list (record * record)) :
  (forall n, le n n = true) ->
  Forall (fun cd => qname cd.1 = qname cd.2) ps ->
  sort_by_name le (interleave ps) = interleave (sort_pairs le ps).
Proof.
  intros Hrefl. induction 1 as [|ab ps Hab Hps IH]; [done|].
  change (interleave (ab :: ps)) with (ab.1 :: ab.2 :: interleave ps).
  cbn [sort_by_name sort_pairs]. rewrite IH.
  apply insert_interleave; [done|done|]. by apply sort_pairs_names.
Qed.

Lemma insert_pair_perm (le : string -> string -> bool)
  (ab : record * record) (ps : list (record * record)) :
  Permutation (insert_pair le ab ps) (ab :: ps).
Proof.
  induction ps as [|cd ps IH]; cbn; [done|].
  destruct (le _ _); [done|]. rewrite IH. apply perm_swap.
Qed.

Lemma sort_pairs_perm (le : string -> string -> bool)
  (ps : list (record * record)) :
  Permutation (sort_pairs le ps) ps.
Proof.
  induction ps as [|ab ps IH]; cbn; [done|].
  by rewrite insert_pair_perm, IH.
Qed.

Lemma bamtofastq_interleave (ps : list (record * record)) :
  Forall well_flagged ps ->
  bamtofastq (interleave ps) = map pair_reads ps.
Proof.
  induction 1 as [|ab ps (Hn & P1 & P2 & _) _ IH]; [done|].
  change (interleave (ab :: ps)) with (ab.1 :: ab.2 :: interleave ps).
  cbn [bamtofastq map]. rewrite bool_decide_eq_true_2 by done.
  rewrite P1, P2. cbn [andb]. by rewrite IH.
Qed.

Lemma Forall_list_filter {A} (P : A -> Prop) (f : A -> bool) (l : list A) :
  Forall P l -> Forall P (List.filter f l).
Proof.
  induction 1 as [|x l Hx _ IH]; cbn; [done|].
  destruct (f x); [by constructor|done].
Qed.

Lemma well_flagged_names (ps : list (record * record)) :
  Forall well_flagged ps -> Forall (fun cd => qname cd.1 = qname cd.2) ps.
Proof. intros H. eapply Forall_impl; [exact H|]. by intros ab [? _]. Qed.

(** The pipe from the aligner to the FASTQ extraction loses no unmapped
    pair.  When the aligner writes the two records of each pair one
    after the other with flags that agree, and the name order of the
    sort is reflexive, the pairs extracted are, up to their order,
    exactly the pairs of the stream with both mates unmapped: as many
    come out as went in unmapped. *)
Theorem unmapped_pairs_all_kept (T : tools) (ps : list (record * record)) :
  Forall well_flagged ps ->
  (forall n, name_le T n n = true) ->
  let pairs := bamtofastq (apply_filters T qc_filter_stages (interleave ps)) in
  pairs ≡ₚ map pair_reads (List.filter both_unmapped ps)
  /\ length pairs = length (List.filter both_unmapped ps).
Proof.
  intros Hps Hrefl pairs. subst pairs.
  unfold apply_filters, qc_filter_stages. cbn [fold_left apply_filter].
  pose proof (Forall_list_filter _ both_unmapped _ Hps) as Hkept.
  rewrite view_flags_interleave by done.
  rewrite sort_interleave by (by try apply well_flagged_names).
  rewrite bamtofastq_interleave
    by (by rewrite sort_pairs_perm).
  assert (map pair_reads (sort_pairs (name_le T)
                            (List.filter both_unmapped ps))
          ≡ₚ map pair_reads (List.filter both_unmapped ps)) as Hperm
    by apply Permutation_map, sort_pairs_perm.
  split; [done|].
  by rewrite Hperm, length_map.
Qed.

Lemma unmapped_pairs_all_kept_witness :
  length (bamtofastq
            (apply_filters Scenario.working qc_filter_stages
               Scenario.sam_stream)) = 2%nat.
Proof.
  refine (proj2 (unmapped_pairs_all_kept Scenario.working
                   [(Scenario.aligned "r2" 77, Scenario.aligned "r2" 141);
                    (Scenario.aligned "r1" 77, Scenario.aligned "r1" 141);
                    (Scenario.aligned "r3" 73, Scenario.aligned "r3" 133);
                    (Scenario.aligned "r4" 99, Scenario.aligned "r4" 147)]
                   _ _)).
  - repeat (apply Forall_cons; split); try (by apply Forall_nil);
      unfold well_flagged; by vm_compute.
  - intros n. cbn [name_le Scenario.working].
    by destruct (String.leb_total n n).
Defined.

End pair_count.

(** ** The order of the stages *)

Section stages.
Import Path Fs Shell Rules.

Lemma sapp_eq_length (a b x y : string) :
  String.length a = String.length b -> a +:+ x = b +:+ y -> a = b /\ x = y.
Proof.
  revert b. induction a as [|c a IH]; intros [|d b]; try done.
  rewrite !sapp_cons. intros [= Hlen] [= -> H].
  by destruct (IH b Hlen H) as [-> ->].
Qed.

(** A name that occurs twice in a path is determined by the path. *)
Lemma doubled_inj (a b m e e' : string) :
  String.length e = String.length e' ->
  a +:+ m +:+ a +:+ e = b +:+ m +:+ b +:+ e' -> a = b.
Proof.
  intros He H.
  assert (String.length a = String.length b) as Hlen.
  { apply (f_equal String.length) in H. rewrite !sapp_length in H. lia. }
  by destruct (sapp_eq_length a b _ _ Hlen H).
Qed.

(** The only job that declares an output of a filtering or report job is
    that job, whatever the sample names are. *)
Lemma sample_output_owner (C : config) (j j' : job) (sample p : string) :
  j = QcFilter sample \/ j = QcPerSampleFastqc sample ->
  p ∈ job_output C j -> p ∈ job_output C j' -> j' = j.
Proof.
  intros Hj Hp Hp'. pose proof (output_rule C j j' p Hp Hp') as Hrule.
  destruct Hj as [-> | ->]; destruct j' as [s' t'|s'|s'| |]; try done;
    f_equal; revert Hp Hp';
    cbn [job_output qc_filter_output qc_per_sample_fastqc_output
         forward reverse html zip];
    rewrite !elem_of_cons, !elem_of_nil.
  - intros [->|[->|[]]] [H|[H|[]]];
      try (by exfalso; revert H;
              neq_by "R1.trimmed.filtered.fastq.gz"
                     "R2.trimmed.filtered.fastq.gz");
      try (by exfalso; revert H;
              neq_by "R2.trimmed.filtered.fastq.gz"
                     "R1.trimmed.filtered.fastq.gz");
      apply sapp_inj_head in H; symmetry;
      by apply (doubled_inj _ _ _ _ _ eq_refl) in H.
  - intros [->|[->|[]]] [H|[H|[]]];
      try (by exfalso; revert H; neq_by "tml" "zip");
      try (by exfalso; revert H; neq_by "zip" "tml");
      apply sapp_inj_head in H; symmetry;
      by apply (doubled_inj _ _ _ _ _ eq_refl) in H.
Qed.

(** In the engine's view, a filtering or report job's output that was
    not there at the start exists only when all the declared inputs of
    that job exist: no sample is filtered before it is trimmed, and none
    is reported on before it is filtered. *)
Theorem stage_order (C : config) (start present : gset string)
  (j : job) (sample p q : string) :
  reachable C start present ->
  j = QcFilter sample \/ j = QcPerSampleFastqc sample ->
  p ∈ job_output C j -> p ∉ start ->
  p ∈ present -> q ∈ job_input C j -> q ∈ present.
Proof.
  intros Hreach Hj Hp Hstart.
  induction Hreach as [|present j' Hreach IH Hready]; [done|].
  intros Hin Hq. apply elem_of_union in Hin as [Hin|Hin].
  - apply elem_of_union. left. by apply IH.
  - apply elem_of_list_to_set in Hin.
    rewrite (sample_output_owner C j j' sample p Hj Hp Hin) in Hready.
    apply elem_of_union. left. by apply Hready.
Qed.

Lemma scenario_reachable :
  reachable (Scenario.cfg PyNone) Scenario.raw_files Scenario.all_done.
Proof.
  assert (forall j (present : gset string),
            bool_decide (Forall (fun p => p ∈ present)
                           (job_input (Scenario.cfg PyNone) j)) = true ->
            forall p, p ∈ job_input (Scenario.cfg PyNone) j -> p ∈ present)
    as Hready.
  { intros j present H%bool_decide_eq_true p Hp.
    by apply (proj1 (Forall_forall _ _) H). }
  unfold Scenario.all_done, Scenario.after.
  repeat (apply reach_job; [|apply Hready; vm_compute; reflexivity]).
  apply reach_start.
Qed.

Lemma stage_order_witness :
  "data/qc/S1/atropos_trimmed/S1.trimmed.R1.fastq.gz" ∈ Scenario.all_done.
Proof.
  refine (stage_order (Scenario.cfg PyNone) Scenario.raw_files
            Scenario.all_done (QcFilter "S1") "S1"
            "data/qc/S1/filtered/S1.R1.trimmed.filtered.fastq.gz" _
            scenario_reachable (or_introl eq_refl) _ _ _ _).
  - apply elem_of_cons. left. reflexivity.
  - apply (bool_decide_unpack _). vm_compute. exact I.
  - apply (bool_decide_unpack _). vm_compute. exact I.
  - apply elem_of_cons. left. reflexivity.
Defined.

Lemma after_samples_start (C : config) (start : gset string)
  (l : list string) (p : string) :
  p ∈ start -> p ∈ after_samples C start l.
Proof. induction l as [|s l IH]; cbn; [done|]. set_solver. Qed.

Lemma after_samples_output (C : config) (start : gset string)
  (l : list string) (sample p : string) :
  sample ∈ l ->
  p ∈ job_output C (QcAtropos sample (trimmer C))
  \/ p ∈ job_output C (QcFilter sample)
  \/ p ∈ job_output C (QcPerSampleFastqc sample) ->
  p ∈ after_samples C start l.
Proof.
  induction l as [|s l IH]; [by intros ?%elem_of_nil|].
  intros [->|Hin]%elem_of_cons Hp; cbn [after_samples].
  - rewrite !elem_of_union, !elem_of_list_to_set. tauto.
  - rewrite !elem_of_union. do 3 left. by apply IH.
Qed.

Lemma after_samples_reachable (C : config) (start : gset string)
  (l : list string) :
  (forall sample p, sample ∈ l ->
     p ∈ job_input C (QcAtropos sample (trimmer C)) -> p ∈ start) ->
  reachable C start (after_samples C start l).
Proof.
  induction l as [|s l IH]; intros Hraw; [apply reach_start|].
  cbn [after_samples].
  apply reach_job; [apply reach_job; [apply reach_job|]|].
  - apply IH. intros sample p Hs. apply Hraw. by apply elem_of_cons; right.
  - intros p Hp. apply after_samples_start, (Hraw s); [|done].
    by apply elem_of_cons; left.
  - intros p Hp. apply elem_of_union. right. by apply elem_of_list_to_set.
  - intros p Hp. apply elem_of_union. right. by apply elem_of_list_to_set.
Qed.

(** The target can be built from the raw reads alone: when the two raw
    files of every configured sample exist, the engine can run the jobs
    in an order in which each finds its declared inputs, and reach a
    state in which every input of the rule [qc] exists. *)
Theorem target_reachable (C : config) (start : gset string) :
  (forall sample p, sample ∈ samples C ->
     p ∈ job_input C (QcAtropos sample (trimmer C)) -> p ∈ start) ->
  exists present,
    reachable C start present
    /\ forall p, p ∈ job_input C Qc -> p ∈ present.
Proof.
  intros Hraw.
  exists (after_samples C start (samples C)
          ∪ list_to_set (job_output C QcPerSampleMultiqc)).
  split.
  - apply reach_job; [by apply after_samples_reachable|].
    intros p (sample & -> & Hs)%list_elem_of_fmap.
    apply (after_samples_output C start _ sample); [done|].
    do 2 right. cbn [job_output]. rewrite !elem_of_cons. tauto.
  - intros p. cbn [job_input]. unfold qc_input, expand.
    rewrite !elem_of_app, !list_elem_of_fmap, list_elem_of_singleton.
    intros [(s & -> & Hs)|[(s & -> & Hs)|[(s & -> & Hs)|[(s & -> & Hs)| ->]]]].
    + apply elem_of_union. left.
      apply (after_samples_output C start _ s); [done|].
      left. cbn [job_output qc_atropos_output forward reverse].
      rewrite !elem_of_cons. tauto.
    + apply elem_of_union. left.
      apply (after_samples_output C start _ s); [done|].
      left. cbn [job_output qc_atropos_output forward reverse].
      rewrite !elem_of_cons. tauto.
    + apply elem_of_union. left.
      apply (after_samples_output C start _ s); [done|].
      right. left. cbn [job_output qc_filter_output forward reverse].
      rewrite !elem_of_cons. tauto.
    + apply elem_of_union. left.
      apply (after_samples_output C start _ s); [done|].
      right. left. cbn [job_output qc_filter_output forward reverse].
      rewrite !elem_of_cons. tauto.
    + apply elem_of_union. right. apply elem_of_list_to_set.
      cbn [job_output]. by apply list_elem_of_singleton.
Qed.

Lemma target_reachable_witness :
  exists present,
    reachable (Scenario.cfg PyNone) Scenario.raw_files present
    /\ forall p, p ∈ job_input (Scenario.cfg PyNone) Qc -> p ∈ present.
Proof.
  refine (target_reachable (Scenario.cfg PyNone) Scenario.raw_files _).
  intros sample p ->%list_elem_of_singleton Hp.
  by apply elem_of_list_to_set.
Defined.

End stages.

(** ** What the combined report reads *)

Section scan.
Import Path Fs Shell Rules.








End scan.

(** ** What the per-sample reports hold *)

Section reports.
Import Path Fs Shell Rules.






End reports.

(** ** The links of the pass-through branch *)

Section links.
Import Path Fs Shell Rules.

(** Every link the pass-through script makes has an absolute target:
    from whatever directory the link is placed in, the target names the
    declared input it stands for.  (A relative target would be read from
    the directory of the link.) *)
Theorem link_targets_absolute (C : config) (cwd sample target link : string)
  (k : list string) :
  isabs cwd = true ->
  LnS target link ∈ qc_filter_link_script C cwd sample ->
  (link = forward (qc_filter_output C sample)
   /\ link_dest k target = key cwd (forward (qc_filter_input C sample)))
  \/ (link = reverse (qc_filter_output C sample)
      /\ link_dest k target = key cwd (reverse (qc_filter_input C sample))).
Proof.
  intros Hcwd. unfold qc_filter_link_script. cbv zeta.
  assert (forall p, link_dest k (abspath cwd p) = key cwd p) as Hdest.
  { intros p. unfold link_dest.
    rewrite (key_of_abs _ cwd) by by apply abspath_abs.
    by apply key_abspath. }
  rewrite !elem_of_cons, elem_of_nil.
  intros [[= -> ->]|[[= -> ->]|[?|[?|[]]]]]; try done; [left|right];
    by rewrite Hdest.
Qed.

Lemma link_targets_absolute_witness :
  link_dest ["somewhere"; "else"]
    (abspath Scenario.cwd "data/qc/S1/atropos_trimmed/S1.trimmed.R1.fastq.gz")
  = key Scenario.cwd "data/qc/S1/atropos_trimmed/S1.trimmed.R1.fastq.gz".
Proof.
  destruct (link_targets_absolute (Scenario.cfg PyNone) Scenario.cwd "S1"
              (abspath Scenario.cwd
                 "data/qc/S1/atropos_trimmed/S1.trimmed.R1.fastq.gz")
              "data/qc/S1/filtered/S1.R1.trimmed.filtered.fastq.gz"
              ["somewhere"; "else"] eq_refl) as [[_ H]|[H _]].
  - apply elem_of_cons. left. reflexivity.
  - exact H.
  - discriminate H.
Defined.

End links.
